(** * Bills API (server/index.js): a shallow embedding and its properties

    The server keeps one in-memory [Store] (bills, per-month payment marks,
    push tokens) and answers JSON requests.  Each handler of
    [server/index.js] is embedded as a function from the store and the parsed
    request to the new store and the response.

    Conventions of the embedding:
    - the numbers of dates and of request fields are exact rationals plus
      [NaN] (no rounding, no infinities, no negative zero); the sums of
      [totalsForMonth], which can overflow, are [xnumber]s: rounded by the
      host's [roundNumber], with both infinities;
    - JavaScript strings are Rocq strings, one character per code unit;
    - JavaScript objects used as dictionaries ([store.payments] and its
      values) are finite maps holding their own properties.  The handlers
      are given twice: [withPaymentStatus], [setPaid] and [handle] read the
      maps alone, which is what the code does on month keys and bill ids
      that name no member of [Object.prototype];
      [withPaymentStatus_js], [setPaid_js] and [handle_js] add the reads a
      property access makes in [Object.prototype], and have no result when
      a month key resolves to a member of it, whose properties are not part
      of the store;
    - a stored bill has the five fields every handler writes, with the types
      the handlers give them;
    - arrays and objects occurring as request field values are kept as the
      string their [toString] produces, which is all the handlers observe. *)

From Stdlib Require Import ZArith QArith Qround Lia Lqa Ascii String.
From stdpp Require Import gmap strings list pretty.

Local Open Scope string_scope.
Local Open Scope Z_scope.

(** ** JavaScript values *)

(** A Number: [NaN] or a finite value. *)
Inductive number : Type :=
| NaN
| Fin (q : Q).

(** A value read from a parsed JSON body.  [JUndefined] is an absent field;
    [JComposite r] is an array or object whose [toString()] is [r]. *)
Inductive JVal : Type :=
| JUndefined
| JNull
| JBool (b : bool)
| JNum (n : number)
| JStr (s : string)
| JComposite (rendering : string).

Definition num_zero : number := Fin 0.
Definition num_of_Z (z : Z) : number := Fin (inject_Z z).

Definition isNaN (n : number) : bool :=
  match n with NaN => true | Fin _ => false end.

(** [a - b] and [a / b] on Numbers (division by zero is outside the finite
    fragment and yields [NaN] here). *)
Definition num_sub (a b : number) : number :=
  match a, b with
  | Fin x, Fin y => Fin (x - y)
  | _, _ => NaN
  end.

Definition num_div (a b : number) : number :=
  match a, b with
  | Fin x, Fin y => if Qeq_bool y 0 then NaN else Fin (x / y)
  | _, _ => NaN
  end.

(** [a <= b], [a >= b] and [a === b] on Numbers: false when either is NaN. *)
Definition num_le (a b : number) : bool :=
  match a, b with
  | Fin x, Fin y => Qle_bool x y
  | _, _ => false
  end.

Definition num_ge (a b : number) : bool := num_le b a.

Definition num_eq (a b : number) : bool :=
  match a, b with
  | Fin x, Fin y => Qeq_bool x y
  | _, _ => false
  end.

(** ToBoolean. *)
Definition truthy (v : JVal) : bool :=
  match v with
  | JUndefined | JNull => false
  | JBool b => b
  | JNum NaN => false
  | JNum (Fin q) => negb (Qeq_bool q 0)
  | JStr s => negb (String.eqb s EmptyString)
  | JComposite _ => true
  end.

(** [a || b]. *)
Definition js_or (a b : JVal) : JVal := if truthy a then a else b.

(** [a === b] where [b] comes from the current request and [a] from the
    store: two composites are distinct objects, hence never identical. *)
Definition strict_eq (a b : JVal) : bool :=
  match a, b with
  | JUndefined, JUndefined => true
  | JNull, JNull => true
  | JBool x, JBool y => Bool.eqb x y
  | JNum x, JNum y => num_eq x y
  | JStr x, JStr y => String.eqb x y
  | _, _ => false
  end.

(** What the host's built-ins compute: [Number(string)], [String(number)]
    and the local time zone adjustment (ECMA-262 LocalTZA(t, isUTC)). *)
Class Host : Type := {
  StringToNumber : string -> number;
  NumberToString : number -> string;
  LocalTZA : Z -> bool -> Z
}.

Section Coercions.
Context `{Host}.

(** [Number(v)]. *)
Definition toNumber (v : JVal) : number :=
  match v with
  | JUndefined => NaN
  | JNull => num_zero
  | JBool b => if b then num_of_Z 1 else num_zero
  | JNum n => n
  | JStr s => StringToNumber s
  | JComposite r => StringToNumber r
  end.

(** [String(v)], also the property key [v] denotes. *)
Definition toString (v : JVal) : string :=
  match v with
  | JUndefined => "undefined"
  | JNull => "null"
  | JBool b => if b then "true" else "false"
  | JNum n => NumberToString n
  | JStr s => s
  | JComposite r => r
  end.

End Coercions.

(** ** Strings: [String.prototype.trim] and [padStart] *)

(** WhiteSpace and LineTerminator code units below 256:
    TAB, LF, VT, FF, CR, SP and NBSP. *)
Definition isWhiteSpace (c : ascii) : bool :=
  let n := nat_of_ascii c in
  ((9 <=? n)%nat && (n <=? 13)%nat) || (n =? 32)%nat || (n =? 160)%nat.

Fixpoint trimStart (s : string) : string :=
  match s with
  | EmptyString => EmptyString
  | String c r => if isWhiteSpace c then trimStart r else s
  end.

Fixpoint trimEnd (s : string) : string :=
  match s with
  | EmptyString => EmptyString
  | String c r =>
      match trimEnd r with
      | EmptyString => if isWhiteSpace c then EmptyString else String c EmptyString
      | r' => String c r'
      end
  end.

(** [s.trim()]. *)
Definition trim (s : string) : string := trimEnd (trimStart s).

Definition firstChar (s : string) : option ascii :=
  match s with
  | EmptyString => None
  | String c _ => Some c
  end.

Fixpoint lastChar (s : string) : option ascii :=
  match s with
  | EmptyString => None
  | String c EmptyString => Some c
  | String _ r => lastChar r
  end.

(** A string with no leading and no trailing whitespace. *)
Definition noSurroundingWhiteSpace (s : string) : Prop :=
  (forall c, firstChar s = Some c -> isWhiteSpace c = false) /\
  (forall c, lastChar s = Some c -> isWhiteSpace c = false).

(** A string made of whitespace only (the empty string included). *)
Fixpoint allWhiteSpace (s : string) : bool :=
  match s with
  | EmptyString => true
  | String c r => isWhiteSpace c && allWhiteSpace r
  end.

Fixpoint repeatString (n : nat) (fill : string) : string :=
  match n with
  | O => EmptyString
  | S k => fill +:+ repeatString k fill
  end.

(** [s.padStart(width, fill)] for a one-character [fill]. *)
Definition padStart (width : nat) (fill : string) (s : string) : string :=
  repeatString (width - String.length s) fill +:+ s.

(** ** Dates (ECMA-262, section "Date Objects")

    Time values are integer milliseconds since the epoch. *)

Definition msPerDay : Z := 86400000.

Definition Day (t : Z) : Z := t / msPerDay.

(** Year, 0-based month and day of month of a day number, by the usual
    proleptic Gregorian computation on 400-year eras. *)
Definition civilFromDays (day : Z) : Z * Z * Z :=
  let z := day + 719468 in
  let era := z / 146097 in
  let doe := z - era * 146097 in
  let yoe := (doe - doe / 1460 + doe / 36524 - doe / 146096) / 365 in
  let doy := doe - (365 * yoe + yoe / 4 - yoe / 100) in
  let mp := (5 * doy + 2) / 153 in
  let d := doy - (153 * mp + 2) / 5 + 1 in
  let m := if mp <? 10 then mp + 3 else mp - 9 in
  let y := yoe + era * 400 + (if m <=? 2 then 1 else 0) in
  (y, m - 1, d).

(** Day number of the first day of 0-based month [mn] of year [ym]. *)
Definition daysFromCivil (ym mn : Z) : Z :=
  let m := mn + 1 in
  let y := if m <=? 2 then ym - 1 else ym in
  let era := y / 400 in
  let yoe := y - era * 400 in
  let doy := (153 * (if 2 <? m then m - 3 else m + 9) + 2) / 5 in
  let doe := yoe * 365 + yoe / 4 - yoe / 100 + doy in
  era * 146097 + doe - 719468.

Definition YearFromTime (t : Z) : Z := (civilFromDays (Day t)).1.1.
Definition MonthFromTime (t : Z) : Z := (civilFromDays (Day t)).1.2.
Definition DateFromTime (t : Z) : Z := (civilFromDays (Day t)).2.

(** ToIntegerOrInfinity on a finite Number: truncation toward zero. *)
Definition truncate (q : Q) : Z := Z.quot (Qnum q) (Zpos (Qden q)).

(** MakeDay(year, month, date) for integral [year] and [month]: no clamping
    of [date] to the length of the month. *)
Definition MakeDay (year month date : Z) : Z :=
  let ym := year + month / 12 in
  let mn := month mod 12 in
  daysFromCivil ym mn + date - 1.

(** TimeClip. *)
Definition TimeClip (t : Z) : number :=
  if 8640000000000000 <? Z.abs t then NaN else num_of_Z t.

Section Dates.
Context `{Host}.

Definition LocalTime (t : Z) : Z := t + LocalTZA t true.
Definition UTC (t : Z) : Z := t - LocalTZA t false.

(** [d.getFullYear()] and [d.getMonth()] of the valid date with time value
    [t]. *)
Definition getFullYear (t : Z) : Z := YearFromTime (LocalTime t).
Definition getMonth (t : Z) : Z := MonthFromTime (LocalTime t).

(** [new Date(year, month, date)] with integral [year] and [month]: the time
    value of the new date, [NaN] for an Invalid Date.  Years 0 to 99 mean
    1900 to 1999. *)
Definition newDate (year month : Z) (date : number) : number :=
  match date with
  | NaN => NaN
  | Fin q =>
      let yr := if (0 <=? year) && (year <=? 99) then 1900 + year else year in
      TimeClip (UTC (MakeDay yr month (truncate q) * msPerDay))
  end.

(** [startOfMonthKey(d)] for the date with time value [t]. *)
Definition startOfMonthKey (t : Z) : string :=
  pretty (getFullYear t) +:+ "-" +:+ padStart 2 "0" (pretty (getMonth t + 1)).

End Dates.

(** ** The store *)

Record Bill : Type := mkBill {
  id : string;
  name : string;
  dueDay : number;
  amount : number;
  notes : string
}.

(** A bill with the [isPaid] flag of one month: [{...bill, isPaid}]. *)
Record ProjectedBill : Type := mkProjected {
  bill : Bill;
  isPaid : bool
}.

Record PushToken : Type := mkPushToken {
  token : JVal;
  platform : JVal
}.

(** [store]: [payments] maps a month key to the object holding that month's
    marks, itself a map from bill id to the stored boolean. *)
Record Store : Type := mkStore {
  bills : list Bill;
  payments : gmap string (gmap string bool);
  pushTokens : list PushToken
}.

(** The seed written by [ensureStoreFile] when there is no store file. *)
Definition seed : Store :=
  {| bills := []; payments := ∅; pushTokens := [] |}.

(** ** Requests, responses and the environment of a handler *)

(** A parsed JSON body: its own properties.  A body that is not an object
    (null, a number, a string, an array) has none of the properties the
    handlers read and is the empty map. *)
Abbreviation Body := (gmap string JVal).

(** [body?.k], and [k] after [const { k } = body || {}]. *)
Definition field (body : Body) (k : string) : JVal :=
  default JUndefined (body !! k).

(** Outcome of [parseJsonBody]: rejected with [Error(message)], or parsed. *)
Inductive ParseResult : Type :=
| BodyError (message : string)
| BodyParsed (body : Body).

Inductive Payload : Type :=
| PError (error : string)
| PBill (b : Bill)
| PBills (l : list ProjectedBill)
| PPaid (billId : string) (month : JVal) (paid : bool)
| PRegistered (tok : JVal)
| POk
| PEmpty.

Record Response : Type := mkResponse {
  statusCode : Z;
  payload : Payload
}.

(** What a handler reads from outside the store: the clock, the next value
    of [randomUUID()], and whether the write made by [persist()] succeeds. *)
Record Env : Type := mkEnv {
  now : Z;
  uuid : string;
  persistOk : bool
}.

(** The outer [catch] of the request listener. *)
Definition internalError : Response :=
  mkResponse 500 (PError "Internal server error").

(** [await persist(); return sendJson(res, ...)]: the response [r] when the
    write succeeds, the outer [catch] otherwise. *)
Definition afterPersist (env : Env) (r : Response) : Response :=
  if persistOk env then r else internalError.

(** ** Payment projection *)

(** [withPaymentStatus(month)], [month] being the property key, read on the
    finite maps alone: what the code computes when neither [month] nor a
    bill id names a member of [Object.prototype].  [withPaymentStatus_js]
    below adds the inherited reads. *)
Definition withPaymentStatus (store : Store) (month : string) : list ProjectedBill :=
  let paid := default ∅ (payments store !! month) in
  map (fun b => {| bill := b; isPaid := default false (paid !! id b) |})
      (bills store).

Section Derivations.
Context `{Host}.

(** [Number(bill.amount || 0)], the summand of [totalsForMonth]. *)
Definition amountOrZero (b : Bill) : number :=
  toNumber (js_or (JNum (amount b)) (JNum num_zero)).

(** ** Upcoming-bill selection *)

(** [due - now] in days for one bill, as in the filter callback of
    POST /api/push/send-upcoming. *)
Definition diffDays (t : Z) (pb : ProjectedBill) : number :=
  let due := newDate (getFullYear t) (getMonth t) (dueDay (bill pb)) in
  num_div (num_sub due (num_of_Z t)) (num_of_Z (1000 * 60 * 60 * 24)).

(** The [upcoming] list of POST /api/push/send-upcoming. *)
Definition selectUpcoming (t : Z) (bs : list ProjectedBill) : list ProjectedBill :=
  List.filter
    (fun pb =>
       num_ge (diffDays t pb) num_zero
       && num_le (diffDays t pb) (num_of_Z 7)
       && negb (isPaid pb))
    bs.

(** The month a request addresses: [body?.month || startOfMonthKey()]. *)
Definition monthOf (env : Env) (body : Body) : JVal :=
  js_or (field body "month") (JStr (startOfMonthKey (now env))).

End Derivations.

(** ** Handlers *)

(** The double-quote character, as a string. *)
Definition dquote : string := String (ascii_of_nat 34) EmptyString.

Definition hasBill (store : Store) (billId : string) : bool :=
  existsb (fun b => String.eqb (id b) billId) (bills store).

(** [(id || emptyString).trim()]: [None] when the value has no [trim] method and the
    call throws a TypeError. *)
Definition trimmedId (v : JVal) : option string :=
  match js_or v (JStr EmptyString) with
  | JStr s => Some (trim s)
  | _ => None
  end.

(** [(id || emptyString).trim() || randomUUID()]. *)
Definition billIdOf (env : Env) (body : Body) : option string :=
  match trimmedId (field body "id") with
  | Some t => Some (if String.eqb t EmptyString then uuid env else t)
  | None => None
  end.

(** [arr.findIndex(p)] followed by [arr.splice(index, 1)]. *)
Fixpoint removeFirst {A : Type} (p : A -> bool) (l : list A) : list A :=
  match l with
  | [] => []
  | x :: r => if p x then r else x :: removeFirst p r
  end.

(** In-place update of the element [arr.find(p)] returns. *)
Fixpoint updateFirst {A : Type} (p : A -> bool) (f : A -> A) (l : list A) : list A :=
  match l with
  | [] => []
  | x :: r => if p x then f x :: r else x :: updateFirst p f r
  end.

Definition isUndefined (v : JVal) : bool :=
  match v with JUndefined => true | _ => false end.

Section Handlers.
Context `{Host}.

(** The checks of POST /api/bills that precede the id computation. *)
Definition nameMissing (body : Body) : bool := negb (truthy (field body "name")).

Definition dueDayInvalid (body : Body) : bool :=
  isUndefined (field body "dueDay") || isNaN (toNumber (field body "dueDay")).

(** [notes ? String(notes) : emptyString]. *)
Definition notesOf (v : JVal) : string :=
  if truthy v then toString v else EmptyString.

(** The [newBill] object of POST /api/bills. *)
Definition newBill (billId : string) (body : Body) : Bill :=
  {| id := billId;
     name := toString (field body "name");
     dueDay := toNumber (field body "dueDay");
     amount := toNumber (js_or (field body "amount") (JNum num_zero));
     notes := notesOf (field body "notes") |}.

(** POST /api/bills. *)
Definition createBill (env : Env) (req : ParseResult) (store : Store)
  : Store * Response :=
  match req with
  | BodyError message => (store, mkResponse 400 (PError message))
  | BodyParsed body =>
      if nameMissing body then
        (store, mkResponse 400 (PError "name is required"))
      else if dueDayInvalid body then
        (store, mkResponse 400 (PError "dueDay must be a number"))
      else
        match billIdOf env body with
        | None => (store, internalError)
        | Some billId =>
            if hasBill store billId then
              (store,
               mkResponse 409
                 (PError ("Bill with id " +:+ dquote +:+ billId +:+ dquote +:+ " already exists")))
            else
              let b := newBill billId body in
              ({| bills := bills store ++ [b];
                  payments := payments store;
                  pushTokens := pushTokens store |},
               afterPersist env (mkResponse 201 (PBill b)))
        end
  end.

(** The field updates of PUT /api/bills/:id on the found bill. *)
Definition applyUpdate (body : Body) (b : Bill) : Bill :=
  let name' := field body "name" in
  let dueDay' := field body "dueDay" in
  let amount' := field body "amount" in
  let notes' := field body "notes" in
  {| id := id b;
     name := if isUndefined name' then name b else toString name';
     dueDay := if isUndefined dueDay' then dueDay b else toNumber dueDay';
     amount := if isUndefined amount' then amount b else toNumber amount';
     notes := if isUndefined notes' then notes b else notesOf notes' |}.

(** PUT /api/bills/:id, [billId] being the decoded path segment. *)
Definition updateBill (env : Env) (billId : string) (req : ParseResult)
  (store : Store) : Store * Response :=
  match req with
  | BodyError message => (store, mkResponse 400 (PError message))
  | BodyParsed body =>
      match List.find (fun b => String.eqb (id b) billId) (bills store) with
      | None => (store, mkResponse 404 (PError "Bill not found"))
      | Some b =>
          ({| bills :=
                updateFirst (fun b => String.eqb (id b) billId)
                  (applyUpdate body) (bills store);
              payments := payments store;
              pushTokens := pushTokens store |},
           afterPersist env (mkResponse 200 (PBill (applyUpdate body b))))
      end
  end.

(** DELETE /api/bills/:id. *)
Definition deleteBill (env : Env) (billId : string) (store : Store)
  : Store * Response :=
  if hasBill store billId then
    ({| bills := removeFirst (fun b => String.eqb (id b) billId) (bills store);
        payments := delete billId <$> payments store;
        pushTokens := pushTokens store |},
     afterPersist env (mkResponse 204 PEmpty))
  else (store, mkResponse 404 (PError "Bill not found")).

(** [if (!store.payments[monthKey]) store.payments[monthKey] = {}], for a
    month key that names no member of [Object.prototype]. *)
Definition ensureMonth (key : string) (pay : gmap string (gmap string bool))
  : gmap string (gmap string bool) :=
  match pay !! key with
  | Some _ => pay
  | None => <[key := ∅]> pay
  end.

(** The writes to [store.payments] in POST /api/bills/:id/paid: create the
    month's object when missing, then set or delete the mark in it.  This is
    the finite-map reading, for keys that name no member of
    [Object.prototype]. *)
Definition markPaid (key billId : string) (flag : JVal)
  (pay : gmap string (gmap string bool)) : gmap string (gmap string bool) :=
  let pay1 := ensureMonth key pay in
  if truthy flag then alter (insert billId true) key pay1
  else alter (delete billId) key pay1.

(** POST /api/bills/:id/paid on the finite maps alone: what the code does
    when neither the month key nor the bill id names a member of
    [Object.prototype].  [setPaid_js] below adds the inherited reads. *)
Definition setPaid (env : Env) (billId : string) (req : ParseResult)
  (store : Store) : Store * Response :=
  match req with
  | BodyError message => (store, mkResponse 400 (PError message))
  | BodyParsed body =>
      if hasBill store billId then
        let monthKey := monthOf env body in
        let key := toString monthKey in
        let pay := markPaid key billId (field body "isPaid") (payments store) in
        ({| bills := bills store;
            payments := pay;
            pushTokens := pushTokens store |},
         afterPersist env
           (mkResponse 200
              (PPaid billId monthKey
                 (default false (default ∅ (pay !! key) !! billId)))))
      else (store, mkResponse 404 (PError "Bill not found"))
  end.

(** POST /api/push/register. *)
Definition registerToken (env : Env) (req : ParseResult) (store : Store)
  : Store * Response :=
  match req with
  | BodyError message => (store, mkResponse 400 (PError message))
  | BodyParsed body =>
      let tok := field body "token" in
      if negb (truthy tok) then
        (store, mkResponse 400 (PError "token is required"))
      else
        match List.find (fun entry => strict_eq (token entry) tok) (pushTokens store) with
        | Some _ => (store, mkResponse 200 (PRegistered tok))
        | None =>
            ({| bills := bills store;
                payments := payments store;
                pushTokens :=
                  pushTokens store ++
                  [{| token := tok;
                      platform := js_or (field body "platform") (JStr "unknown") |}] |},
             afterPersist env (mkResponse 200 (PRegistered tok)))
        end
  end.

(** POST /api/push/unregister. *)
Definition unregisterToken (env : Env) (req : ParseResult) (store : Store)
  : Store * Response :=
  match req with
  | BodyError message => (store, mkResponse 400 (PError message))
  | BodyParsed body =>
      let tok := field body "token" in
      if negb (truthy tok) then
        (store, mkResponse 400 (PError "token is required"))
      else
        ({| bills := bills store;
            payments := payments store;
            pushTokens :=
              List.filter (fun entry => negb (strict_eq (token entry) tok))
                (pushTokens store) |},
         afterPersist env (mkResponse 200 POk))
  end.

(** GET /api/bills, [month] being [url.searchParams.get("month")]. *)
Definition listBills (env : Env) (month : option string) (store : Store)
  : Store * Response :=
  let monthKey :=
    js_or (match month with Some m => JStr m | None => JNull end)
          (JStr (startOfMonthKey (now env))) in
  (store, mkResponse 200 (PBills (withPaymentStatus store (toString monthKey)))).

(** The [upcoming] list POST /api/push/send-upcoming computes from the
    store; the handler does not change the store. *)
Definition upcomingBills (env : Env) (body : Body) (store : Store)
  : list ProjectedBill :=
  selectUpcoming (now env) (withPaymentStatus store (toString (monthOf env body))).

(** The requests that reach a handler reading or writing the store. *)
Inductive Request : Type :=
| ListBills (month : option string)
| CreateBill (req : ParseResult)
| UpdateBill (billId : string) (req : ParseResult)
| DeleteBill (billId : string)
| SetPaid (billId : string) (req : ParseResult)
| RegisterToken (req : ParseResult)
| UnregisterToken (req : ParseResult).

(** The dispatch of the request listener on those requests. *)
Definition handle (env : Env) (r : Request) (store : Store) : Store * Response :=
  match r with
  | ListBills month => listBills env month store
  | CreateBill req => createBill env req store
  | UpdateBill billId req => updateBill env billId req store
  | DeleteBill billId => deleteBill env billId store
  | SetPaid billId req => setPaid env billId req store
  | RegisterToken req => registerToken env req store
  | UnregisterToken req => unregisterToken env req store
  end.

(** The stores the server can be in, started on the seed. *)
Inductive reachable : Store -> Prop :=
| reachable_seed : reachable seed
| reachable_step env r store :
    reachable store -> reachable (handle env r store).1.

End Handlers.

(** ** Loading the store file *)

(** What is at the path of [STORE_FILE]: nothing, a file with contents
    [raw], or something [readFile] fails on with the given error code. *)
Inductive FileNode : Type :=
| Absent
| Regular (raw : string)
| Unreadable (code : string).

Inductive DataDir : Type :=
| NoDir
| Dir (file : FileNode).

(** [writeError] is the code [mkdir] and [writeFile] fail with, if they do. *)
Record FS : Type := mkFS {
  dataDir : DataDir;
  writeError : option string
}.

(** What [JSON.parse] returns: a document with the three fields of a store,
    or some other JSON value. *)
Inductive Document : Type :=
| StoreDoc (s : Store)
| OtherDoc.

Inductive Error : Type :=
| SyntaxError
| SystemError (code : string).

Inductive Outcome (A : Type) : Type :=
| Returned (a : A)
| Thrown (e : Error).

Arguments Returned {A} a.
Arguments Thrown {A} e.

Definition newline : string := String (ascii_of_nat 10) EmptyString.

(** [JSON.stringify(seed, null, 2)]. *)
Definition seedText : string :=
  "{" +:+ newline +:+
  "  " +:+ dquote +:+ "bills" +:+ dquote +:+ ": []," +:+ newline +:+
  "  " +:+ dquote +:+ "payments" +:+ dquote +:+ ": {}," +:+ newline +:+
  "  " +:+ dquote +:+ "pushTokens" +:+ dquote +:+ ": []" +:+ newline +:+
  "}".

Definition fileOf (fs : FS) : FileNode :=
  match dataDir fs with
  | NoDir => Absent
  | Dir f => f
  end.

(** [readFile(STORE_FILE, "utf8")]. *)
Definition readFile (fs : FS) : Outcome string :=
  match fileOf fs with
  | Absent => Thrown (SystemError "ENOENT")
  | Regular raw => Returned raw
  | Unreadable code => Thrown (SystemError code)
  end.

(** [writeFile(STORE_FILE, text)] in an existing directory. *)
Definition writeFile (text : string) (fs : FS) : FS * Outcome unit :=
  match writeError fs with
  | Some code => (fs, Thrown (SystemError code))
  | None =>
      ({| dataDir := Dir (Regular text); writeError := None |}, Returned tt)
  end.

(** [if (!existsSync(DATA_DIR)) await mkdir(DATA_DIR, { recursive: true })]. *)
Definition ensureDir (fs : FS) : FS * Outcome unit :=
  match dataDir fs with
  | Dir _ => (fs, Returned tt)
  | NoDir =>
      match writeError fs with
      | Some code => (fs, Thrown (SystemError code))
      | None => ({| dataDir := Dir Absent; writeError := None |}, Returned tt)
      end
  end.

(** [error.code !== "ENOENT"]; a SyntaxError has no [code]. *)
Definition notENOENT (e : Error) : bool :=
  match e with
  | SyntaxError => true
  | SystemError code => negb (String.eqb code "ENOENT")
  end.

Section Loading.
(** [JSON.parse]: [None] when it throws a SyntaxError. *)
Variable JSON_parse : string -> option Document.

(** The [catch] block of [ensureStoreFile]. *)
Definition recover (e : Error) (fs : FS) : FS * Outcome Document :=
  if notENOENT e then (fs, Thrown e)
  else
    match writeFile seedText fs with
    | (fs', Returned _) => (fs', Returned (StoreDoc seed))
    | (fs', Thrown e') => (fs', Thrown e')
    end.

(** [ensureStoreFile()]. *)
Definition ensureStoreFile (fs : FS) : FS * Outcome Document :=
  match ensureDir fs with
  | (fs1, Thrown e) => (fs1, Thrown e)
  | (fs1, Returned _) =>
      match readFile fs1 with
      | Returned raw =>
          match JSON_parse raw with
          | Some doc => (fs1, Returned doc)
          | None => recover SyntaxError fs1
          end
      | Thrown e => recover e fs1
      end
  end.

End Loading.

(** ** A host for the worked examples

    Time zone UTC; [Number(string)] on decimal literals without exponent
    (other strings with a letter give [NaN], as in JavaScript for anything
    but the exponent, radix-prefix and Infinity forms, which the examples do
    not use); [String(number)] on NaN, integers and short decimals. *)

Definition isDigit (c : ascii) : bool :=
  let n := nat_of_ascii c in (48 <=? n)%nat && (n <=? 57)%nat.

(** Value and length of a run of decimal digits; [None] on any other
    character. *)
Fixpoint digitsValue (acc : Z) (s : string) : option (Z * nat) :=
  match s with
  | EmptyString => Some (acc, O)
  | String c r =>
      if isDigit c then
        match digitsValue (acc * 10 + Z.of_nat (nat_of_ascii c - 48)) r with
        | Some (v, k) => Some (v, S k)
        | None => None
        end
      else None
  end.

(** Splits at the first dot. *)
Fixpoint splitDot (s : string) : string * option string :=
  match s with
  | EmptyString => (EmptyString, None)
  | String c r =>
      if Ascii.eqb c "."%char then (EmptyString, Some r)
      else let '(a, b) := splitDot r in (String c a, b)
  end.

Definition unsignedDecimal (s : string) : number :=
  let '(ip, fp) := splitDot s in
  match digitsValue 0 ip, digitsValue 0 (default EmptyString fp) with
  | Some (iv, ik), Some (fv, fk) =>
      if (ik + fk =? 0)%nat then NaN
      else Fin (Qred (inject_Z iv + (fv # Pos.of_nat (10 ^ fk))))
  | _, _ => NaN
  end.

Definition num_neg (n : number) : number :=
  match n with NaN => NaN | Fin q => Fin (- q) end.

Definition decimalStringToNumber (s : string) : number :=
  match trim s with
  | EmptyString => num_zero
  | String c r =>
      if Ascii.eqb c "-"%char then num_neg (unsignedDecimal r)
      else if Ascii.eqb c "+"%char then unsignedDecimal r
      else unsignedDecimal (String c r)
  end.

(** Digits of the fraction [r / den], at most [fuel] of them. *)
Fixpoint fractionDigits (fuel : nat) (r den : Z) : string :=
  match fuel with
  | O => EmptyString
  | S k =>
      if r =? 0 then EmptyString
      else pretty (r * 10 / den) +:+ fractionDigits k (r * 10 mod den) den
  end.

Definition decimalNumberToString (n : number) : string :=
  match n with
  | NaN => "NaN"
  | Fin q =>
      let num := Qnum q in
      let den := Zpos (Qden q) in
      let ip := Z.quot num den in
      let r := Z.abs (Z.rem num den) in
      if r =? 0 then pretty ip
      else (if (num <? 0) && (ip =? 0) then "-" else EmptyString)
           +:+ pretty ip +:+ "." +:+ fractionDigits 20 r den
  end.

Definition utcHost : Host :=
  {| StringToNumber := decimalStringToNumber;
     NumberToString := decimalNumberToString;
     LocalTZA := fun _ _ => 0 |}.

(** ** Payment marks and bills *)

(** Every payment mark is the mark of a bill of the store. *)
Definition marksHaveBills (store : Store) : Prop :=
  forall month marks billId,
    payments store !! month = Some marks ->
    is_Some (marks !! billId) ->
    hasBill store billId = true.

(** ** Uniqueness of push tokens *)

Definition isComposite (v : JVal) : bool :=
  match v with JComposite _ => true | _ => false end.

(** No two entries of the list hold tokens that are [===] to each other. *)
Fixpoint distinctTokens (l : list PushToken) : Prop :=
  match l with
  | [] => True
  | e :: r =>
      (forall e', In e' r -> strict_eq (token e) (token e') = false) /\
      distinctTokens r
  end.

(** The stored registrations whose token is the value [v]. *)
Definition registrationsOf (v : JVal) (l : list PushToken) : list PushToken :=
  List.filter (fun entry => strict_eq (token entry) v) l.

(** ** Worked example: a store, an environment and some request bodies *)

Definition rent : Bill :=
  {| id := "rent"; name := "Rent"; dueDay := num_of_Z 1;
     amount := num_of_Z 1200; notes := EmptyString |}.

Definition gym : Bill :=
  {| id := "gym"; name := "Gym"; dueDay := num_of_Z 15;
     amount := num_of_Z 40; notes := EmptyString |}.

Definition phone : PushToken :=
  {| token := JStr "ExponentPushToken[abc]"; platform := JStr "ios" |}.

(** Rent is marked paid for May 2024. *)
Definition exampleStore : Store :=
  {| bills := [rent; gym];
     payments := {[ "2024-05" := {[ "rent" := true ]} ]};
     pushTokens := [phone] |}.

(** 10 May 2024, 12:00 UTC. *)
Definition exampleEnv : Env :=
  {| now := 1715342400000;
     uuid := "3b241101-e2bb-4255-8caf-4136c566a962";
     persistOk := true |}.

(** [{ id: "rent" }]: no name, and the id of a stored bill. *)
Definition bodyRentNoName : Body := {[ "id" := JStr "rent" ]}.

(** [{ id: "rent", name: "Rent again", dueDay: 3 }]. *)
Definition bodyRentAgain : Body :=
  <[ "id" := JStr "rent" ]>
    (<[ "name" := JStr "Rent again" ]> {[ "dueDay" := JNum (num_of_Z 3) ]}).

(** [{ name: "Water", dueDay: 20 }]: no id and no amount. *)
Definition bodyWater : Body :=
  <[ "name" := JStr "Water" ]> {[ "dueDay" := JNum (num_of_Z 20) ]}.

(** [{ name: "Water", dueDay: 20, amount: "abc" }]. *)
Definition bodyWaterAbc : Body := <[ "amount" := JStr "abc" ]> bodyWater.

(** [{ id: "  water ", name: "Water", dueDay: 20 }]. *)
Definition bodyWaterSpaced : Body := <[ "id" := JStr "  water " ]> bodyWater.

(** [{ isPaid: "false", month: "2024-05" }]: a non-empty string as flag. *)
Definition bodyPaidMay : Body :=
  <[ "isPaid" := JStr "false" ]> {[ "month" := JStr "2024-05" ]}.

(** [{ token: "ExponentPushToken[abc]" }]. *)
Definition bodyPhone : Body := {[ "token" := JStr "ExponentPushToken[abc]" ]}.

(** The answer of PUT, DELETE and the paid toggle on an unknown id. *)
Definition notFound : Response := mkResponse 404 (PError "Bill not found").

(** ** Uniqueness of bill ids *)

(** No two bills of the store share an id. *)
Definition uniqueIds (store : Store) : Prop :=
  List.NoDup (map id (bills store)).

(** ** Reading the request body *)

(** How the request stream finishes: an [end] event, or an [error] event
    carrying an error with the given message. *)
Inductive StreamEnd : Type :=
| StreamEnded
| StreamFailed (message : string).

(** The [data] chunks of a request in order, and how the stream finishes. *)
Record RequestStream : Type := mkStream {
  chunks : list string;
  ending : StreamEnd
}.

(** The limit [1_000_000] on [body.length]. *)
Definition payloadLimit : Z := 1000000.

(** All the chunks, concatenated. *)
Definition joinChunks (l : list string) : string :=
  fold_right String.append EmptyString l.

Section BodyParsing.
(** [JSON.parse] on a request body: [None] when it throws. *)
Variable JSON_parse_body : string -> option Body.

(** The [end] listener of [parseJsonBody]. *)
Definition onEnd (body : string) : ParseResult :=
  if String.eqb body EmptyString then BodyParsed ∅
  else
    match JSON_parse_body body with
    | Some parsed => BodyParsed parsed
    | None => BodyError "Invalid JSON"
    end.

(** The listeners of [parseJsonBody] run on the events of the stream, [body]
    being what has been accumulated: the first chunk that takes the body
    over the limit rejects the promise and destroys the request. *)
Fixpoint receive (body : string) (l : list string) (e : StreamEnd) : ParseResult :=
  match l with
  | [] =>
      match e with
      | StreamEnded => onEnd body
      | StreamFailed message => BodyError message
      end
  | chunk :: rest =>
      let body' := body +:+ chunk in
      if payloadLimit <? Z.of_nat (String.length body')
      then BodyError "Payload too large"
      else receive body' rest e
  end.

(** [parseJsonBody(req)]. *)
Definition parseJsonBody (req : RequestStream) : ParseResult :=
  receive EmptyString (chunks req) (ending req).

End BodyParsing.

(** ** Routing *)

(** [s] without the prefix [p], when it has that prefix. *)
Fixpoint stripPrefix (p s : string) : option string :=
  match p with
  | EmptyString => Some s
  | String a p' =>
      match s with
      | EmptyString => None
      | String b s' => if Ascii.eqb a b then stripPrefix p' s' else None
      end
  end.

Definition isSlash (c : ascii) : bool := Ascii.eqb c "/"%char.

(** No character of [s] is a slash. *)
Fixpoint noSlash (s : string) : bool :=
  match s with
  | EmptyString => true
  | String c r => negb (isSlash c) && noSlash r
  end.

(** The longest slash-free prefix of [s], and what follows it. *)
Fixpoint splitAtSlash (s : string) : string * string :=
  match s with
  | EmptyString => (EmptyString, EmptyString)
  | String c r =>
      if isSlash c then (EmptyString, s)
      else let '(seg, tail) := splitAtSlash r in (String c seg, tail)
  end.

(** The capture of [/^\/api\/bills\/([^/]+)$/] on the pathname. *)
Definition billIdMatch (pathname : string) : option string :=
  match stripPrefix "/api/bills/" pathname with
  | Some rest =>
      if negb (String.eqb rest EmptyString) && noSlash rest then Some rest
      else None
  | None => None
  end.

(** The capture of [/^\/api\/bills\/([^/]+)\/paid$/] on the pathname. *)
Definition paidMatch (pathname : string) : option string :=
  match stripPrefix "/api/bills/" pathname with
  | Some rest =>
      let '(seg, tail) := splitAtSlash rest in
      if negb (String.eqb seg EmptyString) && String.eqb tail "/paid"
      then Some seg
      else None
  | None => None
  end.

(** The branch of the request listener a request takes; [raw] is the
    captured path segment, before [decodeURIComponent]. *)
Inductive Route : Type :=
| RoutePreflight
| RouteRoot
| RouteList
| RouteCreate
| RouteUpdate (raw : string)
| RouteDelete (raw : string)
| RoutePaid (raw : string)
| RouteRegister
| RouteUnregister
| RouteSendUpcoming
| RouteChat
| RouteNotFound.

(** The chain of tests of the request listener on [req.method] and
    [url.pathname], in its order. *)
Definition route (method pathname : string) : Route :=
  if String.eqb method "OPTIONS" then RoutePreflight
  else if String.eqb method "GET" && String.eqb pathname "/" then RouteRoot
  else if String.eqb method "GET" && String.eqb pathname "/api/bills" then RouteList
  else if String.eqb method "POST" && String.eqb pathname "/api/bills" then RouteCreate
  else
    match billIdMatch pathname, String.eqb method "PUT", String.eqb method "DELETE" with
    | Some raw, true, _ => RouteUpdate raw
    | Some raw, false, true => RouteDelete raw
    | _, _, _ =>
        match paidMatch pathname, String.eqb method "POST" with
        | Some raw, true => RoutePaid raw
        | _, _ =>
            if String.eqb method "POST" && String.eqb pathname "/api/push/register"
            then RouteRegister
            else if String.eqb method "POST" && String.eqb pathname "/api/push/unregister"
            then RouteUnregister
            else if String.eqb method "POST" && String.eqb pathname "/api/push/send-upcoming"
            then RouteSendUpcoming
            else if String.eqb method "POST" && String.eqb pathname "/api/chat"
            then RouteChat
            else RouteNotFound
        end
    end.

(** ** Sending the upcoming bills *)

(** [isValidExpoToken(token)]: a string that starts with the Expo prefix. *)
Definition isValidExpoToken (v : JVal) : bool :=
  match v with
  | JStr s => String.prefix "ExponentPushToken[" s
  | _ => false
  end.

(** One message of the batch sent to the push gateway. *)
Record Notification : Type := mkNotification {
  to : JVal;
  sound : string;
  title : string;
  body : string;
  dataMonth : JVal;
  dataBills : list string
}.

(** What [fetch] on the gateway does: it rejects with an error, or gives a
    response with its [ok] flag and status text, the messages of
    [data.errors] when the body has them, and the value
    [sendExpoPushNotifications] returns from the body. *)
Inductive GatewayReply : Type :=
| FetchRejected (message : string)
| FetchReplied (ok : bool) (statusText : string)
    (errors : option (list string)) (result : JVal).

(** [a || b] on strings. *)
Definition orElse (a b : string) : string :=
  if String.eqb a EmptyString then b else a.

(** [sendExpoPushNotifications(messages)]: the tickets it returns, or the
    message of the error it throws. *)
Definition sendExpoPushNotifications
  (fetch : list Notification -> GatewayReply) (messages : list Notification)
  : JVal + string :=
  match messages with
  | [] => inl (JComposite EmptyString)
  | _ =>
      match fetch messages with
      | FetchRejected message => inr message
      | FetchReplied ok statusText errors result =>
          if ok then inl result
          else
            inr (orElse
                   (match errors with
                    | Some l => String.concat ", " l
                    | None => EmptyString
                    end)
                   (orElse statusText "Expo push request failed"))
      end
  end.

(** The answers of POST /api/push/send-upcoming. *)
Inductive PushAnswer : Type :=
| PushBadRequest (error : string)
| PushNothing (reason : string)
| PushSent (sent : nat) (tickets : JVal)
| PushFailed (details : string).

Definition pushStatus (a : PushAnswer) : Z :=
  match a with
  | PushBadRequest _ => 400
  | PushNothing _ | PushSent _ _ => 200
  | PushFailed _ => 502
  end.

Section SendUpcoming.
Context `{Host}.
(** [n.toFixed(2)]. *)
Variable toFixed2 : number -> string.
Variable fetch : list Notification -> GatewayReply.

(** The line of the message body for one bill. *)
Definition billLine (pb : ProjectedBill) : string :=
  name (bill pb) +:+ " is due on day " +:+ NumberToString (dueDay (bill pb))
  +:+ " (" +:+ toFixed2 (toNumber (JNum (amount (bill pb)))) +:+ ")".

(** The [notifications] built for the valid tokens. *)
Definition notificationsFor (monthKey : JVal) (upcoming : list ProjectedBill)
  (tokens : list PushToken) : list Notification :=
  let messageBody := String.concat newline (map billLine upcoming) in
  map (fun entry =>
         {| to := token entry;
            sound := "default";
            title := "Bills due soon";
            body := messageBody;
            dataMonth := monthKey;
            dataBills := map (fun pb => id (bill pb)) upcoming |})
      tokens.

(** POST /api/push/send-upcoming: the batch handed to the gateway (empty
    when the gateway is not contacted) and the answer. *)
Definition sendUpcoming (env : Env) (req : ParseResult) (store : Store)
  : list Notification * PushAnswer :=
  match req with
  | BodyError message => ([], PushBadRequest message)
  | BodyParsed body =>
      let upcoming := upcomingBills env body store in
      match upcoming with
      | [] => ([], PushNothing "no-upcoming")
      | _ =>
          let tokens :=
            List.filter (fun entry => isValidExpoToken (token entry))
              (pushTokens store) in
          match tokens with
          | [] => ([], PushNothing "no-tokens")
          | _ =>
              let notifications :=
                notificationsFor (monthOf env body) upcoming tokens in
              (notifications,
               match sendExpoPushNotifications fetch notifications with
               | inl tickets => PushSent (length notifications) tickets
               | inr details => PushFailed details
               end)
          end
      end
  end.

End SendUpcoming.

(** ** Property reads through [Object.prototype]

    [store.payments] and the month objects in it are plain objects, made by
    [JSON.parse] or by the literal [{}]: a read [obj[k]] of a key that [obj]
    does not own continues in [Object.prototype].  The finite maps of
    [Store] hold the own properties; the definitions below add the inherited
    reads, for an [Object.prototype] that has its built-in members only.

    When the month key of a request is no own property of [store.payments]
    and names a member of [Object.prototype], [store.payments[monthKey]] is
    that member: the toggle creates no month object and sets, deletes and
    reads back the mark on the member itself, and the projection reads the
    member's properties.  Those are not part of the store, and such a
    request has no result here ([None]). *)

(** The property names of [Object.prototype]: ten functions, the
    [constructor] and the accessor [__proto__]. *)
Definition protoMembers : list string :=
  ["constructor"; "__defineGetter__"; "__defineSetter__"; "hasOwnProperty";
   "__lookupGetter__"; "__lookupSetter__"; "isPrototypeOf";
   "propertyIsEnumerable"; "toString"; "valueOf"; "__proto__";
   "toLocaleString"].

Definition protoMember (k : string) : bool :=
  existsb (String.eqb k) protoMembers.

(** What [store.payments[month]] evaluates to: the month object stored under
    the key, [undefined], or a member of [Object.prototype]. *)
Inductive MonthRead : Type :=
| OwnMonth (marks : gmap string bool)
| NoMonth
| InheritedMonth.

Definition readMonth (pay : gmap string (gmap string bool)) (month : string)
  : MonthRead :=
  match pay !! month with
  | Some marks => OwnMonth marks
  | None => if protoMember month then InheritedMonth else NoMonth
  end.

(** [Boolean(obj[k])] on a month object with own properties [marks]: an own
    property is read first; an inherited member is a function, or for
    [__proto__] the prototype itself, hence truthy. *)
Definition readMark (marks : gmap string bool) (k : string) : bool :=
  match marks !! k with
  | Some v => v
  | None => protoMember k
  end.

(** [obj[k] = true] on a month object: an own property is overwritten; a
    new own property is created, except under [__proto__], whose inherited
    setter is called instead and ignores a boolean. *)
Definition writeMark (k : string) (marks : gmap string bool) : gmap string bool :=
  match marks !! k with
  | Some _ => <[k := true]> marks
  | None => if String.eqb k "__proto__" then marks else <[k := true]> marks
  end.

(** [if (flag) obj[k] = true; else delete obj[k];] on a month object. *)
Definition toggleMark (flag : JVal) (k : string) (marks : gmap string bool)
  : gmap string bool :=
  if truthy flag then writeMark k marks else delete k marks.

(** [withPaymentStatus(month)] with the inherited reads:
    [paid = store.payments?.[month] || {}] is the month object of the store,
    or an empty object; [isPaid] is [Boolean(paid[bill.id])]. *)
Definition withPaymentStatus_js (store : Store) (month : string)
  : option (list ProjectedBill) :=
  let project marks :=
    map (fun b => {| bill := b; isPaid := readMark marks (id b) |}) (bills store) in
  match readMonth (payments store) month with
  | OwnMonth marks => Some (project marks)
  | NoMonth => Some (project ∅)
  | InheritedMonth => None
  end.

Section InheritedReads.
Context `{Host}.

(** POST /api/bills/:id/paid with the inherited reads:
    [if (!store.payments[monthKey]) store.payments[monthKey] = {}] creates
    the month object when the read gives [undefined]; the mark is then set
    or deleted in the month object, and the answer's [isPaid] is
    [Boolean(store.payments[monthKey][billId])]. *)
Definition setPaid_js (env : Env) (billId : string) (req : ParseResult)
  (store : Store) : option (Store * Response) :=
  match req with
  | BodyError message => Some (store, mkResponse 400 (PError message))
  | BodyParsed body =>
      if hasBill store billId then
        let monthKey := monthOf env body in
        let key := toString monthKey in
        let toggle marks :=
          let marks' := toggleMark (field body "isPaid") billId marks in
          Some ({| bills := bills store;
                   payments := <[key := marks']> (payments store);
                   pushTokens := pushTokens store |},
                afterPersist env
                  (mkResponse 200 (PPaid billId monthKey (readMark marks' billId)))) in
        match readMonth (payments store) key with
        | OwnMonth marks => toggle marks
        | NoMonth => toggle ∅
        | InheritedMonth => None
        end
      else Some (store, mkResponse 404 (PError "Bill not found"))
  end.

(** GET /api/bills with the inherited reads. *)
Definition listBills_js (env : Env) (month : option string) (store : Store)
  : option (Store * Response) :=
  let monthKey :=
    js_or (match month with Some m => JStr m | None => JNull end)
          (JStr (startOfMonthKey (now env))) in
  match withPaymentStatus_js store (toString monthKey) with
  | Some l => Some (store, mkResponse 200 (PBills l))
  | None => None
  end.

(** The dispatch with the inherited reads.  The other handlers read no
    property of [store.payments] by a key of the request: DELETE visits
    [Object.keys(store.payments)], the own month keys, and deletes an own
    property of each month object. *)
Definition handle_js (env : Env) (r : Request) (store : Store)
  : option (Store * Response) :=
  match r with
  | ListBills month => listBills_js env month store
  | SetPaid billId req => setPaid_js env billId req store
  | _ => Some (handle env r store)
  end.

(** The stores the server can be in, started on the seed, as long as no
    request resolves its month key to an inherited member. *)
Inductive reachable_js : Store -> Prop :=
| reachable_js_seed : reachable_js seed
| reachable_js_step env r store store' answer :
    reachable_js store ->
    handle_js env r store = Some (store', answer) ->
    reachable_js store'.

End InheritedReads.

(** [{ id: "constructor", name: "Cable", dueDay: 5, amount: 30 }]: a bill
    whose id names a member of [Object.prototype]. *)
Definition bodyConstructor : Body :=
  {[ "id" := JStr "constructor"; "name" := JStr "Cable";
     "dueDay" := JNum (num_of_Z 5); "amount" := JNum (num_of_Z 30) ]}.

Definition cable : Bill :=
  {| id := "constructor"; name := "Cable"; dueDay := num_of_Z 5;
     amount := num_of_Z 30; notes := EmptyString |}.

(** The store after that bill is created on the seed, and after it is then
    marked paid for May 2024. *)
Definition cableStore : Store :=
  {| bills := [cable]; payments := ∅; pushTokens := [] |}.

Definition cablePaidStore : Store :=
  {| bills := [cable];
     payments := {[ "2024-05" := {[ "constructor" := true ]} ]};
     pushTokens := [] |}.

(** The marks of May 2024 emptied, with and without the bill. *)
Definition cableUnpaidStore : Store :=
  {| bills := [cable]; payments := {[ "2024-05" := ∅ ]}; pushTokens := [] |}.

Definition cableDeletedStore : Store :=
  {| bills := []; payments := {[ "2024-05" := ∅ ]}; pushTokens := [] |}.

(** [{ isPaid: false, month: "2024-05" }]. *)
Definition bodyUnpaidMay : Body :=
  {[ "isPaid" := JBool false; "month" := JStr "2024-05" ]}.

(** ** Sums that leave the finite Numbers

    The sum of two finite Numbers is the exact sum rounded to a Number, an
    infinity when the exact sum is too large in magnitude (ECMA-262,
    Number::add), so that the sums of [totalsForMonth] can be infinite and
    their difference NaN.  The rounding is the host's, [roundNumber]; what
    is proved of the sums holds for every rounding with the properties
    [RoundingLaws], which round-to-nearest has. *)

(** A Number: NaN, a finite value, or an infinity. *)
Inductive xnumber : Type :=
| XNaN
| XFin (q : Q)
| XInf (negative : bool).

(** The rounding of an exact result to a Number. *)
Class Rounding : Type := {
  roundNumber : Q -> xnumber
}.

Definition ofNumber (n : number) : xnumber :=
  match n with NaN => XNaN | Fin q => XFin q end.

(** [a <= b] and [a == b] on Numbers. *)
Definition xle (a b : xnumber) : bool :=
  match a, b with
  | XNaN, _ | _, XNaN => false
  | XFin x, XFin y => Qle_bool x y
  | XInf true, _ => true
  | _, XInf false => true
  | _, _ => false
  end.

Definition xeq (a b : xnumber) : bool :=
  match a, b with
  | XFin x, XFin y => Qeq_bool x y
  | XInf s, XInf s' => Bool.eqb s s'
  | _, _ => false
  end.

Definition xneg (a : xnumber) : xnumber :=
  match a with
  | XNaN => XNaN
  | XFin q => XFin (- q)
  | XInf s => XInf (negb s)
  end.

Section Sums.
Context `{Host} {R : Rounding}.

(** [a + b] and [a - b]: the sum of two infinities of opposite sign is
    NaN. *)
Definition xadd (a b : xnumber) : xnumber :=
  match a, b with
  | XNaN, _ | _, XNaN => XNaN
  | XFin x, XFin y => roundNumber (x + y)
  | XInf s, XFin _ => XInf s
  | XFin _, XInf s => XInf s
  | XInf s, XInf s' => if Bool.eqb s s' then XInf s else XNaN
  end.

Definition xsub (a b : xnumber) : xnumber := xadd a (xneg b).

Record Totals : Type := mkTotals {
  total : xnumber;
  paid : xnumber;
  remaining : xnumber
}.

(** The body of [totalsForMonth] on the projected bills: both [reduce]
    calls start from 0, and [remaining] is [total - paid]. *)
Definition totalsOf (bs : list ProjectedBill) : Totals :=
  let total :=
    fold_left (fun sum pb => xadd sum (ofNumber (amountOrZero (bill pb))))
      bs (XFin 0) in
  let paid :=
    fold_left
      (fun sum pb =>
         xadd sum (if isPaid pb then ofNumber (amountOrZero (bill pb)) else XFin 0))
      bs (XFin 0) in
  {| total := total; paid := paid; remaining := xsub total paid |}.

(** [totalsForMonth(month)], on the projection [withPaymentStatus(month)]
    with its inherited reads. *)
Definition totalsForMonth (store : Store) (month : string) : option Totals :=
  match withPaymentStatus_js store month with
  | Some bs => Some (totalsOf bs)
  | None => None
  end.

End Sums.

(** What the rounding of Numbers satisfies, as round-to-nearest does: it
    never gives NaN, it is monotone (a larger exact value never rounds to a
    smaller Number, infinities included), it keeps zero, and it keeps the
    finite Numbers it produces. *)
Record RoundingLaws {R : Rounding} : Prop := {
  round_number : forall q, roundNumber q <> XNaN;
  round_monotone :
    forall p q, (p <= q)%Q -> xle (roundNumber p) (roundNumber q) = true;
  round_zero : xeq (roundNumber 0) (XFin 0) = true;
  round_again :
    forall q r, roundNumber q = XFin r -> xeq (roundNumber r) (XFin r) = true
}.

(** A finite Number the rounding keeps, or an infinity. *)
Definition kept {R : Rounding} (a : xnumber) : Prop :=
  match a with
  | XNaN => False
  | XFin q => xeq (roundNumber q) (XFin q) = true
  | XInf _ => True
  end.

(** The largest finite Number. *)
Definition maxNumber : Q := inject_Z (2 ^ 1024 - 2 ^ 971).

(** A rounding for the worked examples: exact up to the largest Number in
    magnitude, an infinity beyond it. *)
Definition exactRounding : Rounding :=
  {| roundNumber q :=
       if Qle_bool q maxNumber then
         if Qle_bool (- maxNumber) q then XFin q else XInf true
       else XInf false |}.

(** Two bills of amount 1e308, both paid in May 2024. *)
Definition villa : Bill :=
  {| id := "villa"; name := "Villa"; dueDay := num_of_Z 1;
     amount := num_of_Z (10 ^ 308); notes := EmptyString |}.

Definition yacht : Bill :=
  {| id := "yacht"; name := "Yacht"; dueDay := num_of_Z 2;
     amount := num_of_Z (10 ^ 308); notes := EmptyString |}.

Definition largeStore : Store :=
  {| bills := [villa; yacht];
     payments := {[ "2024-05" := {[ "villa" := true; "yacht" := true ]} ]};
     pushTokens := [] |}.

(** * Properties *)

(** ** Reads through [Object.prototype] *)

Lemma readMonth_own (pay : gmap string (gmap string bool)) (month : string) :
  readMonth pay month <> InheritedMonth ->
  readMonth pay month = OwnMonth (default ∅ (pay !! month)) \/
  (readMonth pay month = NoMonth /\ pay !! month = None).
Proof.
  unfold readMonth. destruct (pay !! month) as [m|]; simpl; [auto|].
  destruct (protoMember month); [congruence | auto].
Qed.

Lemma readMonth_insert (pay : gmap string (gmap string bool)) (key month : string)
  (marks : gmap string bool) :
  key <> month -> readMonth (<[key := marks]> pay) month = readMonth pay month.
Proof. intros Ne. unfold readMonth. rewrite lookup_insert_ne by exact Ne. reflexivity. Qed.

Lemma readMonth_insert_eq (pay : gmap string (gmap string bool)) (key : string)
  (marks : gmap string bool) :
  readMonth (<[key := marks]> pay) key = OwnMonth marks.
Proof. unfold readMonth. rewrite lookup_insert_eq. reflexivity. Qed.

(** Reading back the toggled mark. *)
Lemma readMark_toggle (flag : JVal) (k : string) (marks : gmap string bool) :
  readMark (toggleMark flag k marks) k = truthy flag || protoMember k.
Proof.
  unfold toggleMark, readMark, writeMark. destruct (truthy flag); simpl.
  - destruct (marks !! k) as [v|] eqn:E.
    + rewrite lookup_insert_eq. reflexivity.
    + destruct (String.eqb_spec k "__proto__") as [->|Ne].
      * rewrite E. reflexivity.
      * rewrite lookup_insert_eq. reflexivity.
  - rewrite lookup_delete_eq. reflexivity.
Qed.

Lemma readMark_toggle_ne (flag : JVal) (k i : string) (marks : gmap string bool) :
  k <> i -> readMark (toggleMark flag k marks) i = readMark marks i.
Proof.
  intros Ne. unfold toggleMark, readMark, writeMark. destruct (truthy flag).
  - destruct (marks !! k); [rewrite lookup_insert_ne by exact Ne; reflexivity|].
    destruct (String.eqb k "__proto__"); [reflexivity|].
    rewrite lookup_insert_ne by exact Ne. reflexivity.
  - rewrite lookup_delete_ne by exact Ne. reflexivity.
Qed.

Lemma toggleMark_lookup_ne (flag : JVal) (k i : string) (marks : gmap string bool) :
  k <> i -> toggleMark flag k marks !! i = marks !! i.
Proof.
  intros Ne. unfold toggleMark, writeMark. destruct (truthy flag).
  - destruct (marks !! k); [apply lookup_insert_ne, Ne|].
    destruct (String.eqb k "__proto__"); [reflexivity|].
    apply lookup_insert_ne, Ne.
  - apply lookup_delete_ne, Ne.
Qed.

(** Away from [__proto__] the write is an insertion. *)
Lemma toggleMark_ordinary (flag : JVal) (k : string) (marks : gmap string bool) :
  k <> "__proto__" ->
  toggleMark flag k marks
  = if truthy flag then <[k := true]> marks else delete k marks.
Proof.
  intros Ne. unfold toggleMark, writeMark. destruct (truthy flag); [|reflexivity].
  destruct (marks !! k); [reflexivity|].
  destruct (String.eqb_spec k "__proto__"); [contradiction | reflexivity].
Qed.

Lemma withPaymentStatus_js_defined (store : Store) (month : string) :
  readMonth (payments store) month <> InheritedMonth ->
  withPaymentStatus_js store month =
  Some (map (fun b => {| bill := b;
                         isPaid := readMark (default ∅ (payments store !! month)) (id b) |})
            (bills store)).
Proof.
  intros D. unfold withPaymentStatus_js.
  destruct (readMonth_own _ _ D) as [E|[E N]]; rewrite E; [reflexivity|].
  rewrite N. reflexivity.
Qed.

Lemma withPaymentStatus_js_bill (store : Store) (month : string)
  (bs : list ProjectedBill) :
  withPaymentStatus_js store month = Some bs -> map bill bs = bills store.
Proof.
  unfold withPaymentStatus_js.
  destruct (readMonth (payments store) month); intros E; try discriminate;
    injection E as <-; rewrite map_map; apply map_id.
Qed.

Section InheritedFacts.
Context `{Host}.

(** The toggle on a bill that exists, under a month key that does not
    resolve to an inherited member. *)
Lemma setPaid_js_found (env : Env) (billId : string) (body : Body) (store : Store) :
  hasBill store billId = true ->
  readMonth (payments store) (toString (monthOf env body)) <> InheritedMonth ->
  setPaid_js env billId (BodyParsed body) store =
  Some ({| bills := bills store;
           payments :=
             <[toString (monthOf env body) :=
                 toggleMark (field body "isPaid") billId
                   (default ∅ (payments store !! toString (monthOf env body)))]>
               (payments store);
           pushTokens := pushTokens store |},
        afterPersist env
          (mkResponse 200
             (PPaid billId (monthOf env body)
                (truthy (field body "isPaid") || protoMember billId)))).
Proof.
  intros F D. unfold setPaid_js. rewrite F.
  destruct (readMonth_own _ _ D) as [E|[E N]]; rewrite E.
  - rewrite readMark_toggle. reflexivity.
  - rewrite N, readMark_toggle. reflexivity.
Qed.

Lemma setPaid_js_not_found (env : Env) (billId : string) (req : ParseResult)
  (store : Store) :
  hasBill store billId = false ->
  exists answer, setPaid_js env billId req store = Some (store, answer).
Proof.
  intros F. unfold setPaid_js. destruct req; [eauto|]. rewrite F. eauto.
Qed.

End InheritedFacts.
(** ** Numbers and dates *)

Lemma TimeClip_cases (t : Z) :
  TimeClip t = NaN \/ TimeClip t = num_of_Z t.
Proof. unfold TimeClip. destruct (_ <? _); [left | right]; reflexivity. Qed.

Lemma num_of_Z_inj (a b : Z) : num_of_Z a = num_of_Z b -> a = b.
Proof. unfold num_of_Z, inject_Z. intros E. injection E. trivial. Qed.

(** The day quotient of a difference of two time values is within [0, 7]
    exactly when the difference is within 7 days. *)
Lemma diff_in_week (due t : Z) :
  num_ge (num_div (num_sub (num_of_Z due) (num_of_Z t))
                  (num_of_Z (1000 * 60 * 60 * 24))) num_zero
  && num_le (num_div (num_sub (num_of_Z due) (num_of_Z t))
                     (num_of_Z (1000 * 60 * 60 * 24))) (num_of_Z 7) = true
  <-> 0 <= due - t <= 7 * msPerDay.
Proof.
  unfold num_ge, num_le, num_div, num_sub, num_of_Z, num_zero, msPerDay.
  change (Qeq_bool (inject_Z (1000 * 60 * 60 * 24)) 0) with false.
  cbv iota. rewrite andb_true_iff, !Qle_bool_iff.
  change (1000 * 60 * 60 * 24) with 86400000.
  unfold Qle, Qdiv, Qmult, Qinv, Qminus, Qplus, Qopp, inject_Z. simpl.
  lia.
Qed.

(** MakeDay does not clamp the day to the month: [k] more days of month give
    the day number [k] days later, whatever the month's length. *)
Lemma MakeDay_shift (y m d k : Z) : MakeDay y m (d + k) = MakeDay y m d + k.
Proof. unfold MakeDay. lia. Qed.

Section DerivationFacts.
Context `{Host}.

Lemma newDate_cases (y m : Z) (d : number) :
  newDate y m d = NaN \/ exists x, newDate y m d = num_of_Z x.
Proof.
  destruct d as [|q]; simpl; [left; reflexivity|].
  match goal with |- TimeClip ?x = _ \/ _ => destruct (TimeClip_cases x) as [E|E] end;
    rewrite E; eauto.
Qed.

Lemma upcoming_test (t : Z) (pb : ProjectedBill) :
  num_ge (diffDays t pb) num_zero && num_le (diffDays t pb) (num_of_Z 7) = true
  <-> exists due : Z,
        newDate (getFullYear t) (getMonth t) (dueDay (bill pb)) = num_of_Z due /\
        0 <= due - t <= 7 * msPerDay.
Proof.
  unfold diffDays.
  destruct (newDate_cases (getFullYear t) (getMonth t) (dueDay (bill pb)))
    as [E | [x E]]; rewrite E.
  - split; [discriminate | intros (due & D & _); discriminate].
  - rewrite diff_in_week. split.
    + intros R. exists x. split; [reflexivity | exact R].
    + intros (due & D & R). apply num_of_Z_inj in D. subst due. exact R.
Qed.

(** C1: a projected bill is selected by [selectUpcoming] exactly when it is
    in the list, its [isPaid] flag is false and its due date, built from the
    reference date's year and month and the bill's [dueDay] without clamping
    the day to the month's length, is between 0 and 7 days after the
    reference date; a bill with [isPaid] true is never selected. *)
Theorem selectUpcoming_selects (t : Z) (bs : list ProjectedBill) (pb : ProjectedBill) :
  (In pb (selectUpcoming t bs) <->
   In pb bs /\ isPaid pb = false /\
   exists due : Z,
     newDate (getFullYear t) (getMonth t) (dueDay (bill pb)) = num_of_Z due /\
     0 <= due - t <= 7 * msPerDay) /\
  (isPaid pb = true -> ~ In pb (selectUpcoming t bs)) /\
  (forall y m d k : Z, MakeDay y m (d + k) = MakeDay y m d + k).
Proof.
  assert (Hiff :
    In pb (selectUpcoming t bs) <->
    In pb bs /\ isPaid pb = false /\
    exists due : Z,
      newDate (getFullYear t) (getMonth t) (dueDay (bill pb)) = num_of_Z due /\
      0 <= due - t <= 7 * msPerDay).
  { unfold selectUpcoming. rewrite filter_In, andb_true_iff, negb_true_iff.
    rewrite upcoming_test. tauto. }
  split; [exact Hiff|]. split.
  - intros P I. apply Hiff in I. destruct I as (_ & F & _). congruence.
  - apply MakeDay_shift.
Qed.

End DerivationFacts.

(** ** Totals *)

Section TotalsFacts.
Context `{Host}.

(** [Number(bill.amount || 0)] is never NaN: a NaN amount is falsy. *)
Lemma amountOrZero_finite (b : Bill) :
  exists q, amountOrZero b = Fin q /\
            (num_le num_zero (amount b) = true -> (0 <= q)%Q).
Proof.
  unfold amountOrZero, js_or. destruct (amount b) as [|q]; simpl.
  - exists 0%Q. split; [reflexivity | discriminate].
  - destruct (Qeq_bool q 0); simpl.
    + exists 0%Q. split; [reflexivity | intros _; apply Qle_refl].
    + exists q. split; [reflexivity | apply Qle_bool_imp_le].
Qed.

Lemma withPaymentStatus_bill (store : Store) (month : string) :
  map bill (withPaymentStatus store month) = bills store.
Proof.
  unfold withPaymentStatus. rewrite map_map. simpl. apply map_id.
Qed.

End TotalsFacts.

Lemma xle_refl (a : xnumber) : a <> XNaN -> xle a a = true.
Proof.
  destruct a as [|q|[|]]; simpl; try congruence; intros _.
  apply Qle_bool_iff, Qle_refl.
Qed.

Lemma xle_antisym (a b : xnumber) :
  xle a b = true -> xle b a = true -> xeq a b = true.
Proof.
  destruct a as [|x|[|]], b as [|y|[|]]; simpl; try congruence.
  intros A B. apply Qle_bool_iff in A, B. apply Qeq_bool_iff.
  apply Qle_antisym; assumption.
Qed.

Lemma xeq_refl (a : xnumber) : a <> XNaN -> xeq a a = true.
Proof. intros N. apply xle_antisym; apply xle_refl, N. Qed.

Lemma xeq_trans (a b c : xnumber) :
  xeq a b = true -> xeq b c = true -> xeq a c = true.
Proof.
  destruct a as [|x|[|]], b as [|y|[|]], c as [|z|[|]]; simpl; try congruence.
  intros A B. apply Qeq_bool_iff in A, B. apply Qeq_bool_iff.
  rewrite A. exact B.
Qed.

Section RoundingFacts.
Context {R : Rounding}.
Hypothesis laws : RoundingLaws.

Lemma round_equal (p q : Q) :
  (p == q)%Q -> xeq (roundNumber p) (roundNumber q) = true.
Proof.
  intros E. apply xle_antisym; apply (round_monotone laws); rewrite E;
    apply Qle_refl.
Qed.

Lemma round_nonneg (q : Q) :
  (0 <= q)%Q -> xle (XFin 0) (roundNumber q) = true.
Proof.
  intros P. pose proof (round_monotone laws 0 q P) as M.
  pose proof (round_zero laws) as Z.
  destruct (roundNumber 0) as [|z|s]; simpl in Z; try discriminate.
  apply Qeq_bool_iff in Z.
  destruct (roundNumber q) as [|r|[|]]; simpl in M |- *; try congruence.
  apply Qle_bool_iff in M. apply Qle_bool_iff. rewrite <- Z. exact M.
Qed.

Lemma xadd_number (a : xnumber) (q : Q) : a <> XNaN -> xadd a (XFin q) <> XNaN.
Proof.
  destruct a as [|x|s]; simpl; [congruence | intros _ | discriminate].
  apply (round_number laws).
Qed.

End RoundingFacts.

Section SumFacts.
Context `{Host} {R : Rounding}.
Hypothesis laws : RoundingLaws.

(** One step of both sums keeps [paid <= total]. *)
Lemma xadd_ordered (p t : xnumber) (x y : Q) :
  xle p t = true -> xle (XFin 0) p = true ->
  (0 <= x)%Q -> (x <= y)%Q ->
  xle (xadd p (XFin x)) (xadd t (XFin y)) = true /\
  xle (XFin 0) (xadd p (XFin x)) = true.
Proof.
  intros L P X Y.
  destruct p as [|a|[|]]; simpl in P; try discriminate.
  - apply Qle_bool_iff in P.
    assert (N : xle (XFin 0) (roundNumber (a + x)) = true).
    { apply (round_nonneg laws).
      rewrite <- (Qplus_0_r 0). apply Qplus_le_compat; assumption. }
    split; [|exact N].
    destruct t as [|b|[|]]; simpl in L; try discriminate.
    + apply Qle_bool_iff in L. simpl. apply (round_monotone laws).
      apply Qplus_le_compat; assumption.
    + simpl. destruct (roundNumber (a + x)) as [|r|[|]]; simpl in N |- *;
        congruence.
  - destruct t as [|b|[|]]; simpl in L; try discriminate. split; reflexivity.
Qed.

Lemma sums_ordered (bs : list ProjectedBill) (p t : xnumber) :
  xle p t = true -> xle (XFin 0) p = true ->
  Forall (fun pb => num_le num_zero (amount (bill pb)) = true) bs ->
  xle
    (fold_left
       (fun sum pb =>
          xadd sum (if isPaid pb then ofNumber (amountOrZero (bill pb)) else XFin 0))
       bs p)
    (fold_left (fun sum pb => xadd sum (ofNumber (amountOrZero (bill pb)))) bs t)
  = true.
Proof.
  revert p t. induction bs as [|pb bs IH]; intros p t L P Hall; simpl; [exact L|].
  inversion Hall as [|? ? Hpb Hrest]; subst.
  destruct (amountOrZero_finite (bill pb)) as (a & Ea & Ha). rewrite Ea. simpl.
  specialize (Ha Hpb).
  destruct (isPaid pb).
  - destruct (xadd_ordered p t a a L P Ha (Qle_refl a)) as [L' P'].
    apply IH; assumption.
  - destruct (xadd_ordered p t 0 a L P (Qle_refl 0) Ha) as [L' P'].
    apply IH; assumption.
Qed.

Lemma total_number (bs : list ProjectedBill) (a : xnumber) :
  a <> XNaN ->
  fold_left (fun sum pb => xadd sum (ofNumber (amountOrZero (bill pb)))) bs a
  <> XNaN.
Proof.
  revert a. induction bs as [|pb bs IH]; intros a N; simpl; [exact N|].
  destruct (amountOrZero_finite (bill pb)) as (q & Eq & _). rewrite Eq. simpl.
  apply IH, (xadd_number laws), N.
Qed.

Lemma paid_number (bs : list ProjectedBill) (a : xnumber) :
  a <> XNaN ->
  fold_left
    (fun sum pb =>
       xadd sum (if isPaid pb then ofNumber (amountOrZero (bill pb)) else XFin 0))
    bs a
  <> XNaN.
Proof.
  revert a. induction bs as [|pb bs IH]; intros a N; simpl; [exact N|].
  destruct (amountOrZero_finite (bill pb)) as (q & Eq & _). rewrite Eq. simpl.
  apply IH. destruct (isPaid pb); apply (xadd_number laws), N.
Qed.

(** [a - b == a - b] fails exactly on two equal infinities. *)
Lemma xsub_number (a b : xnumber) :
  a <> XNaN -> b <> XNaN ->
  xeq (xsub a b) (xsub a b) = true <->
  ~ (exists s, a = XInf s /\ b = XInf s).
Proof.
  intros Na Nb. unfold xsub.
  destruct a as [|x|s], b as [|y|s']; try congruence; simpl.
  - split.
    + intros _ (s & E & _). discriminate.
    + intros _. apply xeq_refl, (round_number laws).
  - split; [intros _ (s & E & _); discriminate|].
    intros _. apply eqb_reflx.
  - split; [intros _ (s0 & _ & E); discriminate|].
    intros _. apply eqb_reflx.
  - destruct s, s'; simpl; split; intros X;
      first [ discriminate X
            | reflexivity
            | intros (s & E1 & E2); congruence
            | exfalso; apply X; eauto ].
Qed.


End SumFacts.

(** ** Bills: creation and deletion *)

Lemma hasBill_true (store : Store) (billId : string) :
  hasBill store billId = true <->
  exists b, In b (bills store) /\ id b = billId.
Proof.
  unfold hasBill. rewrite existsb_exists.
  split; intros (b & I & E); exists b; split; try assumption.
  - apply String.eqb_eq. exact E.
  - apply String.eqb_eq. exact E.
Qed.

(** Deleting a bill that is in the store removes its id from every month. *)
Lemma deleteBill_removes_marks (env : Env) (billId : string) (store : Store) :
  (exists b, In b (bills store) /\ id b = billId) ->
  (forall month marks,
     payments (deleteBill env billId store).1 !! month = Some marks ->
     marks !! billId = None) /\
  (forall month,
     payments (deleteBill env billId store).1 !! month
     = delete billId <$> payments store !! month) /\
  (persistOk env = true ->
   (deleteBill env billId store).2 = mkResponse 204 PEmpty).
Proof.
  intros Hin. apply hasBill_true in Hin.
  unfold deleteBill. rewrite Hin. simpl. split; [|split].
  - intros month marks. rewrite lookup_fmap.
    destruct (payments store !! month) as [m|]; simpl; [|discriminate].
    intros E. injection E as <-. apply lookup_delete_eq.
  - intros month. apply lookup_fmap.
  - intros P. unfold afterPersist. rewrite P. reflexivity.
Qed.

Section CreationFacts.
Context `{Host}.

(** What POST /api/bills does with a parsed body that passes both checks
    and whose id is computed. *)
Lemma createBill_checked (env : Env) (body : Body) (store : Store) (billId : string) :
  nameMissing body = false ->
  dueDayInvalid body = false ->
  billIdOf env body = Some billId ->
  createBill env (BodyParsed body) store =
  if hasBill store billId then
    (store,
     mkResponse 409
       (PError ("Bill with id " +:+ dquote +:+ billId +:+ dquote +:+ " already exists")))
  else
    ({| bills := bills store ++ [newBill billId body];
        payments := payments store;
        pushTokens := pushTokens store |},
     afterPersist env (mkResponse 201 (PBill (newBill billId body)))).
Proof.
  intros N D I. unfold createBill. rewrite N, D, I. reflexivity.
Qed.

(** C3 (amended): a creation request whose supplied or generated id is the
    id of a bill already in the store leaves the whole store unchanged; it is
    answered 409 when it passes the name and dueDay checks, and 400 when it
    fails one of them. *)
Theorem createBill_duplicate (env : Env) (body : Body) (store : Store) (billId : string) :
  billIdOf env body = Some billId ->
  (exists b, In b (bills store) /\ id b = billId) ->
  (createBill env (BodyParsed body) store).1 = store /\
  (if nameMissing body || dueDayInvalid body
   then statusCode (createBill env (BodyParsed body) store).2 = 400
   else (createBill env (BodyParsed body) store).2 =
        mkResponse 409
          (PError ("Bill with id " +:+ dquote +:+ billId +:+ dquote +:+ " already exists"))).
Proof.
  intros I Hin. apply hasBill_true in Hin.
  destruct (nameMissing body) eqn:N.
  - unfold createBill. rewrite N. split; reflexivity.
  - destruct (dueDayInvalid body) eqn:D.
    + unfold createBill. rewrite N, D. split; reflexivity.
    + rewrite (createBill_checked env body store billId N D I), Hin.
      split; reflexivity.
Qed.

(** C6 (amended): a creation request that passes the checks and whose id
    is new stores [Number(amount || 0)] as the amount: 0 when the amount
    field is absent or any other falsy value, the number itself when it is a
    non-zero number. *)
Theorem createBill_amount (env : Env) (body : Body) (store : Store) (billId : string) :
  nameMissing body = false ->
  dueDayInvalid body = false ->
  billIdOf env body = Some billId ->
  hasBill store billId = false ->
  bills (createBill env (BodyParsed body) store).1
    = (bills store ++ [newBill billId body])%list /\
  amount (newBill billId body)
    = toNumber (js_or (field body "amount") (JNum num_zero)) /\
  (truthy (field body "amount") = false ->
   amount (newBill billId body) = num_zero) /\
  (forall n, field body "amount" = JNum n -> truthy (JNum n) = true ->
             amount (newBill billId body) = n).
Proof.
  intros N D I Hfresh.
  rewrite (createBill_checked env body store billId N D I), Hfresh.
  split; [reflexivity|]. split; [reflexivity|]. split.
  - intros F. simpl. unfold js_or. rewrite F. reflexivity.
  - intros n E T. simpl. unfold js_or. rewrite E, T. reflexivity.
Qed.

End CreationFacts.

(** ** Trimming *)

Lemma trimStart_first (s : string) (c : ascii) :
  firstChar (trimStart s) = Some c -> isWhiteSpace c = false.
Proof.
  induction s as [|a r IH]; simpl; [discriminate|].
  destruct (isWhiteSpace a) eqn:W; [exact IH|].
  simpl. intros E. injection E as <-. exact W.
Qed.

Lemma trimEnd_first (s : string) (c : ascii) :
  firstChar (trimEnd s) = Some c -> firstChar s = Some c.
Proof.
  destruct s as [|a r]; simpl; [discriminate|].
  destruct (trimEnd r); [destruct (isWhiteSpace a)|]; simpl; try discriminate; trivial.
Qed.

Lemma trimEnd_last (s : string) (c : ascii) :
  lastChar (trimEnd s) = Some c -> isWhiteSpace c = false.
Proof.
  induction s as [|a r IH]; simpl; [discriminate|].
  destruct (trimEnd r) as [|b r'] eqn:E.
  - destruct (isWhiteSpace a) eqn:W; simpl; [discriminate|].
    intros L. injection L as <-. exact W.
  - simpl. exact IH.
Qed.

Lemma trim_noSurroundingWhiteSpace (s : string) :
  noSurroundingWhiteSpace (trim s).
Proof.
  unfold noSurroundingWhiteSpace, trim. split; intros c E.
  - apply trimEnd_first in E. apply (trimStart_first s c E).
  - apply (trimEnd_last _ c E).
Qed.

Lemma trimStart_blank (s : string) :
  allWhiteSpace s = true -> trimStart s = EmptyString.
Proof.
  induction s as [|a r IH]; simpl; [reflexivity|].
  destruct (isWhiteSpace a); simpl; [exact IH | discriminate].
Qed.

Lemma trimEnd_blank (s : string) :
  trimEnd s = EmptyString -> allWhiteSpace s = true.
Proof.
  induction s as [|a r IH]; simpl; [reflexivity|].
  destruct (trimEnd r) as [|b r'].
  - destruct (isWhiteSpace a); [intros _; simpl; apply IH; reflexivity | discriminate].
  - discriminate.
Qed.

Lemma trimStart_nonblank (s : string) :
  allWhiteSpace s = false -> allWhiteSpace (trimStart s) = false.
Proof.
  induction s as [|a r IH]; simpl; [trivial|].
  destruct (isWhiteSpace a) eqn:W; simpl; [exact IH|].
  intros _. rewrite W. reflexivity.
Qed.

(** [s.trim()] is empty exactly when [s] is whitespace only. *)
Lemma trim_blank (s : string) :
  String.eqb (trim s) EmptyString = allWhiteSpace s.
Proof.
  destruct (allWhiteSpace s) eqn:A.
  - unfold trim. rewrite (trimStart_blank s A). reflexivity.
  - apply String.eqb_neq. intros E. unfold trim in E.
    apply trimEnd_blank in E. rewrite (trimStart_nonblank s A) in E.
    discriminate.
Qed.

(** ** The id of a created bill *)

Lemma trimmedId_string (s : string) : trimmedId (JStr s) = Some (trim s).
Proof.
  unfold trimmedId, js_or. simpl.
  destruct (String.eqb_spec s EmptyString) as [->|]; reflexivity.
Qed.

Lemma trimmedId_trimmed (v : JVal) (t : string) :
  trimmedId v = Some t -> noSurroundingWhiteSpace t.
Proof.
  unfold trimmedId. destruct (js_or v (JStr EmptyString)); try discriminate.
  intros E. injection E as <-. apply trim_noSurroundingWhiteSpace.
Qed.

Lemma billIdOf_wellformed (env : Env) (body : Body) (billId : string) :
  uuid env <> EmptyString ->
  noSurroundingWhiteSpace (uuid env) ->
  billIdOf env body = Some billId ->
  billId <> EmptyString /\ noSurroundingWhiteSpace billId.
Proof.
  intros U W. unfold billIdOf.
  destruct (trimmedId (field body "id")) as [t|] eqn:T; [|discriminate].
  intros E. injection E as <-.
  destruct (String.eqb_spec t EmptyString) as [->|Ne].
  - split; assumption.
  - split; [assumption | apply (trimmedId_trimmed _ _ T)].
Qed.

Section IdFacts.
Context `{Host}.

(** C9: at bill creation an absent, empty or whitespace-only id is replaced
    by the generated UUID and any other string id is trimmed; a request that
    passes the name and dueDay checks and whose id so computed is new has
    its bill appended to the store under that id; so that the id of every
    bill the creation adds to the store is a non-empty string without
    leading or trailing whitespace ([randomUUID()] returning such a
    string). *)
Theorem createBill_id (env : Env) (body : Body) (store : Store) :
  uuid env <> EmptyString ->
  noSurroundingWhiteSpace (uuid env) ->
  (forall b,
     In b (bills (createBill env (BodyParsed body) store).1) ->
     In b (bills store) \/
     (billIdOf env body = Some (id b) /\
      id b <> EmptyString /\ noSurroundingWhiteSpace (id b))) /\
  (field body "id" = JUndefined -> billIdOf env body = Some (uuid env)) /\
  (forall s, field body "id" = JStr s -> allWhiteSpace s = true ->
             billIdOf env body = Some (uuid env)) /\
  (forall s, field body "id" = JStr s -> allWhiteSpace s = false ->
             billIdOf env body = Some (trim s)) /\
  (forall billId,
     nameMissing body = false ->
     dueDayInvalid body = false ->
     billIdOf env body = Some billId ->
     hasBill store billId = false ->
     exists b,
       bills (createBill env (BodyParsed body) store).1
       = (bills store ++ [b])%list /\
       id b = billId /\
       (createBill env (BodyParsed body) store).2
       = afterPersist env (mkResponse 201 (PBill b))).
Proof.
  intros U W. split; [|split; [|split; [|split]]].
  - intros b. unfold createBill.
    destruct (nameMissing body); [auto|].
    destruct (dueDayInvalid body); [auto|].
    destruct (billIdOf env body) as [billId|] eqn:I; [|auto].
    destruct (hasBill store billId); [auto|].
    simpl. intros Hin. apply in_app_or in Hin. destruct Hin as [Hin|Hin]; [auto|].
    right. destruct Hin as [<-|[]]. simpl.
    split; [reflexivity | apply (billIdOf_wellformed env body billId U W I)].
  - intros E. unfold billIdOf. rewrite E. reflexivity.
  - intros s E A. unfold billIdOf. rewrite E, trimmedId_string, trim_blank, A.
    reflexivity.
  - intros s E A. unfold billIdOf. rewrite E, trimmedId_string, trim_blank, A.
    reflexivity.
  - intros billId N D I F.
    rewrite (createBill_checked env body store billId N D I), F.
    exists (newBill billId body). repeat split.
Qed.

End IdFacts.

(** ** Payment marks *)

Lemma ensureMonth_lookup (key month : string) (pay : gmap string (gmap string bool)) :
  ensureMonth key pay !! month =
  if decide (key = month) then Some (default ∅ (pay !! key)) else pay !! month.
Proof.
  unfold ensureMonth. destruct (pay !! key) as [m|] eqn:E.
  - case_decide; [subst; rewrite E; reflexivity | reflexivity].
  - rewrite lookup_insert. case_decide; reflexivity.
Qed.

(** The month object [markPaid] leaves under each key. *)
Lemma markPaid_lookup (key billId month : string) (flag : JVal)
  (pay : gmap string (gmap string bool)) :
  markPaid key billId flag pay !! month =
  if decide (key = month) then
    Some (if truthy flag then <[billId := true]> (default ∅ (pay !! key))
          else delete billId (default ∅ (pay !! key)))
  else pay !! month.
Proof.
  unfold markPaid. destruct (truthy flag); rewrite lookup_alter;
    (case_decide as E;
     [ rewrite ensureMonth_lookup, decide_True by reflexivity; reflexivity
     | rewrite ensureMonth_lookup, decide_False by exact E; reflexivity ]).
Qed.

Lemma hasBill_false (store : Store) (b : Bill) :
  hasBill store (id b) = false -> ~ In b (bills store).
Proof.
  intros F I. assert (T : hasBill store (id b) = true).
  { apply hasBill_true. exists b. auto. }
  congruence.
Qed.

Section PaidFacts.
Context `{Host}.

(** The store POST /api/bills/:id/paid leaves, for a bill that exists. *)
Lemma setPaid_found (env : Env) (billId : string) (body : Body) (store : Store) :
  hasBill store billId = true ->
  setPaid env billId (BodyParsed body) store =
  ({| bills := bills store;
      payments :=
        markPaid (toString (monthOf env body)) billId (field body "isPaid")
          (payments store);
      pushTokens := pushTokens store |},
   afterPersist env
     (mkResponse 200
        (PPaid billId (monthOf env body)
           (default false
              (default ∅
                 (markPaid (toString (monthOf env body)) billId
                    (field body "isPaid") (payments store)
                  !! toString (monthOf env body)) !! billId))))).
Proof. intros F. unfold setPaid. rewrite F. reflexivity. Qed.

Lemma setPaid_not_found (env : Env) (billId : string) (body : Body) (store : Store) :
  hasBill store billId = false ->
  setPaid env billId (BodyParsed body) store =
  (store, mkResponse 404 (PError "Bill not found")).
Proof. intros F. unfold setPaid. rewrite F. reflexivity. Qed.

(** X21: with the inherited reads, a paid toggle whose month key [M] does
    not resolve to a member of [Object.prototype] has a result; it leaves
    the projection of every other month, the bills and the push tokens as
    they were, and the projection of [M] afterwards shows the old flags on
    the other bills and, on the bill of the request, the truthiness of
    [isPaid], or [true] when the bill id names a member of
    [Object.prototype].  [M] is the month the request names, or the current
    month when it names none. *)
Theorem toggle_month_scoped (env : Env) (billId : string) (body : Body)
  (store : Store) :
  readMonth (payments store) (toString (monthOf env body)) <> InheritedMonth ->
  exists store' answer,
    setPaid_js env billId (BodyParsed body) store = Some (store', answer) /\
    (forall M', M' <> toString (monthOf env body) ->
                withPaymentStatus_js store' M' = withPaymentStatus_js store M') /\
    bills store' = bills store /\
    pushTokens store' = pushTokens store /\
    (forall M, field body "month" = JStr M -> M <> EmptyString ->
               toString (monthOf env body) = M) /\
    (field body "month" = JUndefined ->
     toString (monthOf env body) = startOfMonthKey (now env)) /\
    ((exists b, In b (bills store) /\ id b = billId) ->
     exists l,
       withPaymentStatus_js store (toString (monthOf env body)) = Some l /\
       withPaymentStatus_js store' (toString (monthOf env body))
       = Some (map (fun pb =>
                      if String.eqb (id (bill pb)) billId
                      then {| bill := bill pb;
                              isPaid := truthy (field body "isPaid")
                                        || protoMember billId |}
                      else pb) l)).
Proof.
  intros D.
  assert (HM : forall M, field body "month" = JStr M -> M <> EmptyString ->
                         toString (monthOf env body) = M).
  { intros M E Ne. unfold monthOf, js_or. rewrite E. simpl.
    destruct (String.eqb_spec M EmptyString); [contradiction | reflexivity]. }
  assert (HU : field body "month" = JUndefined ->
               toString (monthOf env body) = startOfMonthKey (now env)).
  { intros E. unfold monthOf, js_or. rewrite E. reflexivity. }
  destruct (hasBill store billId) eqn:F.
  - rewrite (setPaid_js_found env billId body store F D).
    eexists _, _. split; [reflexivity|]. cbn [bills payments pushTokens].
    split; [|split; [reflexivity|split; [reflexivity|split; [exact HM|split; [exact HU|]]]]].
    + intros M' Ne. unfold withPaymentStatus_js. cbn [bills payments].
      rewrite readMonth_insert by congruence. reflexivity.
    + intros _. eexists. split; [apply withPaymentStatus_js_defined, D|].
      unfold withPaymentStatus_js. cbn [bills payments].
      rewrite readMonth_insert_eq, map_map. f_equal.
      apply map_ext. intros b. cbn [bill isPaid].
      destruct (String.eqb_spec (id b) billId) as [->|Nb].
      * rewrite readMark_toggle. reflexivity.
      * rewrite readMark_toggle_ne by congruence. reflexivity.
  - destruct (setPaid_js_not_found env billId (BodyParsed body) store F) as [a E].
    rewrite E. eexists _, _. split; [reflexivity|].
    split; [reflexivity|split; [reflexivity|split; [reflexivity|split; [exact HM|split; [exact HU|]]]]].
    intros Hin. apply hasBill_true in Hin. congruence.
Qed.

(** X22: with the inherited reads, for a bill that exists and a month key
    that does not resolve to a member of [Object.prototype], the toggle
    reads [isPaid] by truthiness: a truthy value (the string "false"
    included) stores the mark and a falsy one (false, 0, the empty string,
    null, absent) removes it, marked before or not, whatever the bill id but
    [__proto__]; the answer is 200 and its [isPaid] is that truthiness, or
    [true] when the bill id names a member of [Object.prototype]; and the
    month key has an entry afterwards, empty when it had none and the flag
    is falsy. *)
Theorem toggle_truthiness (env : Env) (billId : string) (body : Body)
  (store : Store) :
  (exists b, In b (bills store) /\ id b = billId) ->
  persistOk env = true ->
  readMonth (payments store) (toString (monthOf env body)) <> InheritedMonth ->
  (exists store' marks,
     setPaid_js env billId (BodyParsed body) store
     = Some (store',
             mkResponse 200
               (PPaid billId (monthOf env body)
                  (truthy (field body "isPaid") || protoMember billId))) /\
     payments store' !! toString (monthOf env body) = Some marks /\
     readMark marks billId = truthy (field body "isPaid") || protoMember billId /\
     (billId <> "__proto__" ->
      marks !! billId = if truthy (field body "isPaid") then Some true else None) /\
     (payments store !! toString (monthOf env body) = None ->
      truthy (field body "isPaid") = false -> marks = ∅)) /\
  truthy (JStr "false") = true /\
  truthy (JBool false) = false /\
  truthy (JNum num_zero) = false /\
  truthy (JStr EmptyString) = false /\
  truthy JNull = false /\
  truthy JUndefined = false.
Proof.
  intros Hin P D. split; [|repeat split]. apply hasBill_true in Hin.
  rewrite (setPaid_js_found env billId body store Hin D).
  unfold afterPersist. rewrite P. eexists _, _. split; [reflexivity|].
  cbn [payments]. rewrite lookup_insert_eq. split; [reflexivity|].
  split; [apply readMark_toggle|]. split.
  - intros Ne. rewrite toggleMark_ordinary by exact Ne.
    destruct (truthy (field body "isPaid")).
    + apply lookup_insert_eq.
    + apply lookup_delete_eq.
  - intros E F. rewrite E. unfold toggleMark. rewrite F. simpl.
    apply delete_empty.
Qed.

End PaidFacts.

(** C5: the projection of a month does not show the flag just set when the
    bill id names a member of [Object.prototype].  The bill with id
    "constructor" is created on the seed; clearing its paid flag for May
    2024 deletes the mark, and the projection of May 2024 afterwards shows
    the bill paid all the same: [paid[bill.id]] reads the inherited
    [constructor]. *)
Theorem setPaid_inherited_flag :
  createBill (H:=utcHost) exampleEnv (BodyParsed bodyConstructor) seed
  = (cableStore, mkResponse 201 (PBill cable))
  /\ truthy (field bodyUnpaidMay "isPaid") = false
  /\ fst <$> setPaid_js (H:=utcHost) exampleEnv "constructor"
               (BodyParsed bodyUnpaidMay) cableStore
     = Some cableUnpaidStore
  /\ withPaymentStatus_js cableUnpaidStore "2024-05"
     = Some [{| bill := cable; isPaid := true |}].
Proof. repeat split; vm_compute; reflexivity. Qed.

(** C10: removing a mark is not answered [isPaid: false] when the bill id
    names a member of [Object.prototype].  Removing the mark of the bill
    with id "constructor", which has none, is answered 200 with
    [isPaid: true]: [Boolean(store.payments[monthKey][billId])] reads the
    inherited [constructor]. *)
Theorem setPaid_inherited_answer :
  hasBill cableStore "constructor" = true
  /\ payments cableStore !! "2024-05" = None
  /\ truthy (field bodyUnpaidMay "isPaid") = false
  /\ setPaid_js (H:=utcHost) exampleEnv "constructor"
       (BodyParsed bodyUnpaidMay) cableStore
     = Some (cableUnpaidStore,
             mkResponse 200 (PPaid "constructor" (JStr "2024-05") true)).
Proof. repeat split; vm_compute; reflexivity. Qed.

(** ** Push tokens *)

Lemma Qeq_bool_sym (x y : Q) : Qeq_bool x y = Qeq_bool y x.
Proof.
  destruct (Qeq_bool x y) eqn:A, (Qeq_bool y x) eqn:B; trivial.
  - apply Qeq_bool_iff in A. symmetry in A. apply Qeq_bool_iff in A. congruence.
  - apply Qeq_bool_iff in B. symmetry in B. apply Qeq_bool_iff in B. congruence.
Qed.

Lemma strict_eq_sym (a b : JVal) : strict_eq a b = strict_eq b a.
Proof.
  destruct a as [| |x|x|x|x], b as [| |y|y|y|y]; simpl; trivial.
  - destruct x, y; reflexivity.
  - destruct x, y; simpl; trivial. apply Qeq_bool_sym.
  - apply String.eqb_sym.
Qed.

(** Two values identical to a third are identical to each other. *)
Lemma strict_eq_common (a b v : JVal) :
  strict_eq a v = true -> strict_eq b v = true -> strict_eq a b = true.
Proof.
  destruct a as [| |x|x|x|x], v as [| |z|z|z|z]; simpl; try discriminate;
    destruct b as [| |y|y|y|y]; simpl; try discriminate; trivial.
  - destruct x, y, z; simpl; trivial; discriminate.
  - destruct x, y, z; simpl; try discriminate.
    rewrite !Qeq_bool_iff. intros A B. rewrite A, B. reflexivity.
  - rewrite !String.eqb_eq. congruence.
Qed.

(** A truthy value that is not an array or object is identical to itself. *)
Lemma strict_eq_refl (v : JVal) :
  truthy v = true -> isComposite v = false -> strict_eq v v = true.
Proof.
  destruct v as [| |x|x|x|x]; simpl; try discriminate; trivial.
  - intros _ _. destruct x; reflexivity.
  - destruct x; [discriminate|]. intros _ _. apply Qeq_bool_iff. reflexivity.
  - intros _ _. apply String.eqb_refl.
Qed.

Lemma distinctTokens_snoc (l : list PushToken) (e : PushToken) :
  distinctTokens l ->
  (forall e', In e' l -> strict_eq (token e') (token e) = false) ->
  distinctTokens (l ++ [e]).
Proof.
  induction l as [|a r IH]; simpl.
  - intros _ _. split; [intros e' []|exact I].
  - intros [D1 D2] N. split.
    + intros e' Hin. apply in_app_or in Hin. destruct Hin as [Hin|[<-|[]]].
      * apply D1, Hin.
      * apply N. left. reflexivity.
    + apply IH; [exact D2|]. intros e' Hin. apply N. right. exact Hin.
Qed.

Lemma distinctTokens_filter (f : PushToken -> bool) (l : list PushToken) :
  distinctTokens l -> distinctTokens (List.filter f l).
Proof.
  induction l as [|a r IH]; simpl; [trivial|].
  intros [D1 D2]. destruct (f a); simpl; [|apply IH, D2].
  split; [|apply IH, D2].
  intros e' Hin. apply filter_In in Hin. apply D1. tauto.
Qed.

(** Pairwise distinct tokens: at most one registration per token value. *)
Lemma distinctTokens_at_most_one (v : JVal) (l : list PushToken) :
  distinctTokens l -> (length (registrationsOf v l) <= 1)%nat.
Proof.
  unfold registrationsOf. induction l as [|a r IH]; simpl; [lia|].
  intros [D1 D2]. destruct (strict_eq (token a) v) eqn:E; [|apply IH, D2].
  simpl. assert (N : List.filter (fun entry => strict_eq (token entry) v) r = []).
  { destruct (List.filter _ r) as [|e' t] eqn:Fl; [reflexivity|].
    assert (Hin : In e' (List.filter (fun entry => strict_eq (token entry) v) r))
      by (rewrite Fl; left; reflexivity).
    apply filter_In in Hin. destruct Hin as [Hin Ev].
    specialize (D1 e' Hin). rewrite (strict_eq_common _ _ _ E Ev) in D1.
    discriminate. }
  rewrite N. simpl. lia.
Qed.

Section TokenFacts.
Context `{Host}.

(** Re-registering a stored token value changes nothing. *)
Lemma registerToken_known (env : Env) (body : Body) (store : Store) (e : PushToken) :
  In e (pushTokens store) ->
  token e = field body "token" ->
  truthy (field body "token") = true ->
  isComposite (field body "token") = false ->
  registerToken env (BodyParsed body) store
  = (store, mkResponse 200 (PRegistered (field body "token"))).
Proof.
  intros Hin E T C. unfold registerToken. rewrite T. simpl.
  destruct (List.find _ (pushTokens store)) eqn:F; [reflexivity|].
  apply (find_none _ _ F) in Hin. simpl in Hin.
  rewrite E, (strict_eq_refl _ T C) in Hin. discriminate.
Qed.

Lemma registerToken_distinct (env : Env) (req : ParseResult) (store : Store) :
  distinctTokens (pushTokens store) ->
  distinctTokens (pushTokens (registerToken env req store).1).
Proof.
  intros D. unfold registerToken. destruct req as [m|body]; [exact D|].
  destruct (truthy (field body "token")); simpl; [|exact D].
  destruct (List.find _ (pushTokens store)) eqn:F; simpl; [exact D|].
  apply distinctTokens_snoc; [exact D|].
  intros e' Hin. apply (find_none _ _ F) in Hin. exact Hin.
Qed.

Lemma unregisterToken_distinct (env : Env) (req : ParseResult) (store : Store) :
  distinctTokens (pushTokens store) ->
  distinctTokens (pushTokens (unregisterToken env req store).1).
Proof.
  intros D. unfold unregisterToken. destruct req as [m|body]; [exact D|].
  destruct (truthy (field body "token")); simpl; [|exact D].
  apply distinctTokens_filter, D.
Qed.

(** The other handlers do not touch the token list. *)
Lemma createBill_pushTokens (env : Env) (req : ParseResult) (store : Store) :
  pushTokens (createBill env req store).1 = pushTokens store.
Proof.
  unfold createBill. destruct req as [m|body]; [reflexivity|].
  destruct (nameMissing body); [reflexivity|].
  destruct (dueDayInvalid body); [reflexivity|].
  destruct (billIdOf env body) as [i|]; [|reflexivity].
  destruct (hasBill store i); reflexivity.
Qed.

Lemma updateBill_pushTokens (env : Env) (billId : string) (req : ParseResult)
  (store : Store) :
  pushTokens (updateBill env billId req store).1 = pushTokens store.
Proof.
  unfold updateBill. destruct req as [m|body]; [reflexivity|].
  destruct (List.find _ (bills store)); reflexivity.
Qed.

Lemma deleteBill_pushTokens (env : Env) (billId : string) (store : Store) :
  pushTokens (deleteBill env billId store).1 = pushTokens store.
Proof. unfold deleteBill. destruct (hasBill store billId); reflexivity. Qed.

Lemma setPaid_pushTokens (env : Env) (billId : string) (req : ParseResult)
  (store : Store) :
  pushTokens (setPaid env billId req store).1 = pushTokens store.
Proof.
  unfold setPaid. destruct req as [m|body]; [reflexivity|].
  destruct (hasBill store billId); reflexivity.
Qed.

(** Every request keeps the stored tokens pairwise distinct. *)
Lemma handle_distinct (env : Env) (r : Request) (store : Store) :
  distinctTokens (pushTokens store) ->
  distinctTokens (pushTokens (handle env r store).1).
Proof.
  intros D. destruct r; simpl.
  - exact D.
  - rewrite createBill_pushTokens. exact D.
  - rewrite updateBill_pushTokens. exact D.
  - rewrite deleteBill_pushTokens. exact D.
  - rewrite setPaid_pushTokens. exact D.
  - apply registerToken_distinct, D.
  - apply unregisterToken_distinct, D.
Qed.

Lemma reachable_distinct (store : Store) :
  reachable store -> distinctTokens (pushTokens store).
Proof.
  induction 1 as [|env r store R IH]; [exact I|].
  apply handle_distinct, IH.
Qed.

(** C7: registering a token value the store already holds leaves the store
    (and so the token list, its length and its entries) unchanged and is
    answered 200; every store the server reaches from the seed holds at
    most one registration per token value, and a request served on any store
    with pairwise distinct tokens leaves such a store. *)
Theorem registerToken_idempotent :
  (forall (env : Env) (body : Body) (store : Store) (e : PushToken),
     In e (pushTokens store) ->
     token e = field body "token" ->
     truthy (field body "token") = true ->
     isComposite (field body "token") = false ->
     registerToken env (BodyParsed body) store
     = (store, mkResponse 200 (PRegistered (field body "token")))) /\
  (forall (store : Store) (v : JVal),
     reachable store ->
     (length (registrationsOf v (pushTokens store)) <= 1)%nat) /\
  (forall (env : Env) (r : Request) (store : Store) (v : JVal),
     distinctTokens (pushTokens store) ->
     distinctTokens (pushTokens (handle env r store).1) /\
     (length (registrationsOf v (pushTokens (handle env r store).1)) <= 1)%nat).
Proof.
  split; [|split].
  - apply registerToken_known.
  - intros store v R. apply distinctTokens_at_most_one, reachable_distinct, R.
  - intros env r store v D. split.
    + apply handle_distinct, D.
    + apply distinctTokens_at_most_one, handle_distinct, D.
Qed.

End TokenFacts.

(** ** Loading *)

(** C8: with no store file and writes succeeding, [ensureStoreFile] writes
    the seed (no bills, no payments, no tokens) to the file and returns it;
    with a file whose contents [JSON.parse] rejects, it throws that
    SyntaxError and leaves the file as it is. *)
Theorem ensureStoreFile_load (JSON_parse : string -> option Document) (fs : FS) :
  (fileOf fs = Absent -> writeError fs = None ->
   ensureStoreFile JSON_parse fs
   = ({| dataDir := Dir (Regular seedText); writeError := None |},
      Returned (StoreDoc seed))) /\
  (forall raw, dataDir fs = Dir (Regular raw) -> JSON_parse raw = None ->
   ensureStoreFile JSON_parse fs = (fs, Thrown SyntaxError)) /\
  bills seed = [] /\ payments seed = ∅ /\ pushTokens seed = [].
Proof.
  split; [|split; [|repeat split]].
  - destruct fs as [d w]. unfold fileOf. simpl. intros A W. subst w.
    destruct d as [|f]; [reflexivity|]. subst f. reflexivity.
  - intros raw D P. destruct fs as [d w]. simpl in D. subst d.
    unfold ensureStoreFile. simpl. rewrite P. reflexivity.
Qed.

(** ** Payment marks belong to bills *)

Lemma existsb_id_app (billId : string) (l r : list Bill) :
  existsb (fun b => String.eqb (id b) billId) l = true ->
  existsb (fun b => String.eqb (id b) billId) (l ++ r) = true.
Proof. intros E. rewrite existsb_app, E. reflexivity. Qed.

Lemma existsb_id_updateFirst (billId : string) (p : Bill -> bool)
  (f : Bill -> Bill) (l : list Bill) :
  (forall b, id (f b) = id b) ->
  existsb (fun b => String.eqb (id b) billId) (updateFirst p f l)
  = existsb (fun b => String.eqb (id b) billId) l.
Proof.
  intros Hf. induction l as [|a r IH]; simpl; [reflexivity|].
  destruct (p a); simpl; [rewrite Hf; reflexivity | rewrite IH; reflexivity].
Qed.

(** Removing the first bill whose id is [gone] keeps the bills of other ids. *)
Lemma existsb_id_removeFirst (billId gone : string) (l : list Bill) :
  billId <> gone ->
  existsb (fun b => String.eqb (id b) billId)
    (removeFirst (fun b => String.eqb (id b) gone) l)
  = existsb (fun b => String.eqb (id b) billId) l.
Proof.
  intros Ne. induction l as [|a r IH]; simpl; [reflexivity|].
  destruct (String.eqb_spec (id a) gone) as [E|E]; simpl.
  - destruct (String.eqb_spec (id a) billId); [congruence | reflexivity].
  - rewrite IH. reflexivity.
Qed.

Section MarkFacts.
Context `{Host}.

Lemma createBill_marks (env : Env) (req : ParseResult) (store : Store) :
  marksHaveBills store -> marksHaveBills (createBill env req store).1.
Proof.
  intros Inv. unfold createBill. destruct req as [m|body]; [exact Inv|].
  destruct (nameMissing body); [exact Inv|].
  destruct (dueDayInvalid body); [exact Inv|].
  destruct (billIdOf env body) as [i|]; [|exact Inv].
  destruct (hasBill store i); [exact Inv|].
  intros month marks billId L S. unfold hasBill. simpl.
  apply existsb_id_app. exact (Inv month marks billId L S).
Qed.

Lemma updateBill_marks (env : Env) (billId : string) (req : ParseResult)
  (store : Store) :
  marksHaveBills store -> marksHaveBills (updateBill env billId req store).1.
Proof.
  intros Inv. unfold updateBill. destruct req as [m|body]; [exact Inv|].
  destruct (List.find _ (bills store)); [|exact Inv].
  intros month marks i L S. unfold hasBill. simpl.
  rewrite existsb_id_updateFirst by reflexivity.
  exact (Inv month marks i L S).
Qed.

Lemma deleteBill_marks (env : Env) (billId : string) (store : Store) :
  marksHaveBills store -> marksHaveBills (deleteBill env billId store).1.
Proof.
  intros Inv. unfold deleteBill. destruct (hasBill store billId); [|exact Inv].
  intros month marks i. simpl. rewrite lookup_fmap.
  destruct (payments store !! month) as [m|] eqn:L; simpl; [|discriminate].
  intros E. injection E as <-. intros S.
  destruct (decide (billId = i)) as [->|Ne].
  - rewrite lookup_delete_eq in S. destruct S as [x S]. discriminate.
  - rewrite lookup_delete_ne in S by exact Ne.
    unfold hasBill. simpl. rewrite existsb_id_removeFirst by congruence.
    exact (Inv month m i L S).
Qed.

Lemma setPaid_marks (env : Env) (billId : string) (req : ParseResult)
  (store : Store) :
  marksHaveBills store -> marksHaveBills (setPaid env billId req store).1.
Proof.
  intros Inv. unfold setPaid. destruct req as [m|body]; [exact Inv|].
  destruct (hasBill store billId) eqn:F; [|exact Inv].
  intros month marks i. simpl. rewrite markPaid_lookup.
  case_decide as K; [|apply Inv].
  intros E. injection E as <-. intros S.
  assert (Old : is_Some (default ∅ (payments store !! toString (monthOf env body)) !! i)
                -> hasBill store i = true).
  { destruct (payments store !! toString (monthOf env body)) as [m|] eqn:L; simpl.
    - apply (Inv _ m i L).
    - rewrite lookup_empty. intros [x X]. discriminate. }
  destruct (decide (billId = i)) as [<-|Ne]; [exact F|].
  destruct (truthy (field body "isPaid")).
  - rewrite lookup_insert_ne in S by exact Ne. apply Old, S.
  - rewrite lookup_delete_ne in S by exact Ne. apply Old, S.
Qed.

Lemma registerToken_marks (env : Env) (req : ParseResult) (store : Store) :
  marksHaveBills store -> marksHaveBills (registerToken env req store).1.
Proof.
  intros Inv. unfold registerToken. destruct req as [m|body]; [exact Inv|].
  destruct (truthy (field body "token")); simpl; [|exact Inv].
  destruct (List.find _ (pushTokens store)); exact Inv.
Qed.

Lemma unregisterToken_marks (env : Env) (req : ParseResult) (store : Store) :
  marksHaveBills store -> marksHaveBills (unregisterToken env req store).1.
Proof.
  intros Inv. unfold unregisterToken. destruct req as [m|body]; [exact Inv|].
  destruct (truthy (field body "token")); exact Inv.
Qed.

Lemma handle_marks (env : Env) (r : Request) (store : Store) :
  marksHaveBills store -> marksHaveBills (handle env r store).1.
Proof.
  intros Inv. destruct r; simpl.
  - exact Inv.
  - apply createBill_marks, Inv.
  - apply updateBill_marks, Inv.
  - apply deleteBill_marks, Inv.
  - apply setPaid_marks, Inv.
  - apply registerToken_marks, Inv.
  - apply unregisterToken_marks, Inv.
Qed.

Lemma setPaid_js_marks (env : Env) (billId : string) (req : ParseResult)
  (store store' : Store) (answer : Response) :
  setPaid_js env billId req store = Some (store', answer) ->
  marksHaveBills store -> marksHaveBills store'.
Proof.
  intros E Inv. destruct req as [m|body].
  { injection E as <- _. exact Inv. }
  destruct (hasBill store billId) eqn:F.
  - assert (D : readMonth (payments store) (toString (monthOf env body))
                <> InheritedMonth).
    { intros X. unfold setPaid_js in E. rewrite F, X in E. discriminate. }
    rewrite (setPaid_js_found env billId body store F D) in E.
    injection E as <- _. intros month marks i. cbn [payments].
    destruct (decide (toString (monthOf env body) = month)) as [<-|K].
    + rewrite lookup_insert_eq. intros L. injection L as <-. intros S.
      destruct (decide (billId = i)) as [<-|Ne]; [exact F|].
      rewrite toggleMark_lookup_ne in S by exact Ne.
      destruct (payments store !! toString (monthOf env body)) as [m|] eqn:L.
      * exact (Inv _ m i L S).
      * simpl in S. rewrite lookup_empty in S. destruct S as [x X]. discriminate.
    + rewrite lookup_insert_ne by exact K. apply Inv.
  - destruct (setPaid_js_not_found env billId (BodyParsed body) store F) as [a E'].
    rewrite E' in E. injection E as <- _. exact Inv.
Qed.

Lemma handle_js_marks (env : Env) (r : Request) (store store' : Store)
  (answer : Response) :
  handle_js env r store = Some (store', answer) ->
  marksHaveBills store -> marksHaveBills store'.
Proof.
  intros E Inv.
  assert (G : forall r', Some (handle env r' store) = Some (store', answer) ->
                         marksHaveBills store').
  { intros r' E'. injection E' as E'.
    replace store' with (handle env r' store).1 by (rewrite E'; reflexivity).
    apply handle_marks, Inv. }
  destruct r as [month|req|billId req|billId|billId req|req|req]; simpl in E;
    [ | exact (G (CreateBill req) E) | exact (G (UpdateBill billId req) E)
      | exact (G (DeleteBill billId) E) |
      | exact (G (RegisterToken req) E) | exact (G (UnregisterToken req) E) ].
  - unfold listBills_js in E.
    destruct (withPaymentStatus_js store _); [|discriminate].
    injection E as <- _. exact Inv.
  - apply (setPaid_js_marks _ _ _ _ _ _ E Inv).
Qed.

Lemma reachable_js_marks (store : Store) :
  reachable_js store -> marksHaveBills store.
Proof.
  induction 1 as [|env r store store' answer R IH E].
  - intros month marks billId L. simpl in L. rewrite lookup_empty in L.
    discriminate.
  - apply (handle_js_marks _ _ _ _ _ E IH).
Qed.

(** X23: deleting a bill that is in the store leaves no own payment mark
    for its id under any month key, so that a read of the id in a month
    object finds nothing, or the inherited member when the id names one; it
    keeps the month keys and every other bill's marks, and answers 204 once
    the store is written.  And in every store reached from the seed through
    requests that have a result with the inherited reads, each own payment
    mark is the mark of a stored bill. *)
Theorem deleteBill_own_marks :
  (forall (env : Env) (billId : string) (store : Store),
     (exists b, In b (bills store) /\ id b = billId) ->
     (forall month marks,
        payments (deleteBill env billId store).1 !! month = Some marks ->
        marks !! billId = None /\ readMark marks billId = protoMember billId) /\
     (forall month,
        payments (deleteBill env billId store).1 !! month
        = delete billId <$> payments store !! month) /\
     (persistOk env = true ->
      (deleteBill env billId store).2 = mkResponse 204 PEmpty)) /\
  (forall (store : Store) (month : string) (marks : gmap string bool)
          (billId : string),
     reachable_js store ->
     payments store !! month = Some marks ->
     is_Some (marks !! billId) ->
     exists b, In b (bills store) /\ id b = billId).
Proof.
  split.
  - intros env billId store Hin.
    destruct (deleteBill_removes_marks env billId store Hin) as (A & B & C).
    split; [|split; assumption].
    intros month marks L. pose proof (A month marks L) as N.
    split; [exact N|]. unfold readMark. rewrite N. reflexivity.
  - intros store month marks billId R L S. apply hasBill_true.
    exact (reachable_js_marks store R month marks billId L S).
Qed.

End MarkFacts.

(** C2: deleting a bill does not clear what the months read for its id
    when the id names a member of [Object.prototype].  The bill with id
    "constructor" is marked paid for May 2024 and deleted: the cascade
    deletes the mark and the request is answered 204, yet a read of the id
    in the month object of May 2024 still finds a truthy value, the
    inherited [constructor], and the bill created again under that id is
    projected paid. *)
Theorem deleteBill_inherited_mark :
  setPaid_js (H:=utcHost) exampleEnv "constructor" (BodyParsed bodyPaidMay)
    cableStore
  = Some (cablePaidStore,
          mkResponse 200 (PPaid "constructor" (JStr "2024-05") true))
  /\ deleteBill exampleEnv "constructor" cablePaidStore
     = (cableDeletedStore, mkResponse 204 PEmpty)
  /\ (exists marks,
        payments cableDeletedStore !! "2024-05" = Some marks /\
        marks !! "constructor" = None /\
        readMark marks "constructor" = true)
  /\ createBill (H:=utcHost) exampleEnv (BodyParsed bodyConstructor)
       cableDeletedStore
     = (cableUnpaidStore, mkResponse 201 (PBill cable))
  /\ withPaymentStatus_js cableUnpaidStore "2024-05"
     = Some [{| bill := cable; isPaid := true |}].
Proof.
  split; [vm_compute; reflexivity|]. split; [vm_compute; reflexivity|].
  split; [exists ∅; repeat split; vm_compute; reflexivity|].
  split; vm_compute; reflexivity.
Qed.

(** * Further properties of the handlers *)

(** ** Bill ids *)

Lemma hasBill_In (store : Store) (billId : string) :
  hasBill store billId = true <-> In billId (map id (bills store)).
Proof.
  rewrite hasBill_true, in_map_iff.
  split; intros (b & A & B); exists b; auto.
Qed.

Lemma map_id_updateFirst (p : Bill -> bool) (f : Bill -> Bill) (l : list Bill) :
  (forall b, id (f b) = id b) ->
  map id (updateFirst p f l) = map id l.
Proof.
  intros Hf. induction l as [|a r IH]; simpl; [reflexivity|].
  destruct (p a); simpl; [rewrite Hf | rewrite IH]; reflexivity.
Qed.

Lemma In_removeFirst {A : Type} (p : A -> bool) (x : A) (l : list A) :
  In x (removeFirst p l) -> In x l.
Proof.
  induction l as [|a r IH]; simpl; [trivial|].
  destruct (p a); simpl; [auto|]. intros [E|I]; auto.
Qed.

Lemma In_map_id_removeFirst (p : Bill -> bool) (i : string) (l : list Bill) :
  In i (map id (removeFirst p l)) -> In i (map id l).
Proof.
  rewrite !in_map_iff. intros (b & E & I). exists b. split; [exact E|].
  apply (In_removeFirst p b l I).
Qed.

Lemma NoDup_removeFirst (p : Bill -> bool) (l : list Bill) :
  List.NoDup (map id l) -> List.NoDup (map id (removeFirst p l)).
Proof.
  induction l as [|a r IH]; simpl; [trivial|].
  intros N. apply List.NoDup_cons_iff in N. destruct N as [Na Nr].
  destruct (p a); simpl; [exact Nr|].
  apply List.NoDup_cons_iff. split; [|apply IH, Nr].
  intros I. apply Na. apply (In_map_id_removeFirst p _ _ I).
Qed.

Lemma NoDup_snoc {A : Type} (x : A) (l : list A) :
  List.NoDup l -> ~ In x l -> List.NoDup (l ++ [x]).
Proof.
  induction l as [|a r IH]; simpl.
  - intros _ _. constructor; [intros []|constructor].
  - intros N Nx. apply List.NoDup_cons_iff in N. destruct N as [Na Nr].
    apply List.NoDup_cons_iff. split.
    + intros I. apply in_app_or in I. destruct I as [I|[E|[]]]; [auto|].
      apply Nx. left. symmetry. exact E.
    + apply IH; [exact Nr|]. intros I. apply Nx. right. exact I.
Qed.

(** With unique ids, removing the first bill of an id removes every bill of
    that id. *)
Lemma removeFirst_filter (billId : string) (l : list Bill) :
  List.NoDup (map id l) ->
  removeFirst (fun b => String.eqb (id b) billId) l
  = List.filter (fun b => negb (String.eqb (id b) billId)) l.
Proof.
  induction l as [|a r IH]; simpl; [reflexivity|].
  intros N. apply List.NoDup_cons_iff in N. destruct N as [Na Nr].
  destruct (String.eqb_spec (id a) billId) as [E|E]; simpl.
  - symmetry. apply forallb_filter_id. apply forallb_forall. intros b I.
    apply negb_true_iff, String.eqb_neq. intros Eb. apply Na.
    rewrite E, <- Eb. apply in_map. exact I.
  - rewrite (IH Nr). reflexivity.
Qed.

Section IdInvariant.
Context `{Host}.

Lemma createBill_uniqueIds (env : Env) (req : ParseResult) (store : Store) :
  uniqueIds store -> uniqueIds (createBill env req store).1.
Proof.
  intros U. unfold createBill. destruct req as [m|body]; [exact U|].
  destruct (nameMissing body); [exact U|].
  destruct (dueDayInvalid body); [exact U|].
  destruct (billIdOf env body) as [i|]; [|exact U].
  destruct (hasBill store i) eqn:F; [exact U|].
  unfold uniqueIds. simpl. rewrite map_app. simpl.
  apply NoDup_snoc; [exact U|].
  intros I. apply hasBill_In in I. congruence.
Qed.

Lemma updateBill_uniqueIds (env : Env) (billId : string) (req : ParseResult)
  (store : Store) :
  uniqueIds store -> uniqueIds (updateBill env billId req store).1.
Proof.
  intros U. unfold updateBill. destruct req as [m|body]; [exact U|].
  destruct (List.find _ (bills store)); [|exact U].
  unfold uniqueIds. simpl. rewrite map_id_updateFirst by reflexivity. exact U.
Qed.

Lemma deleteBill_uniqueIds (env : Env) (billId : string) (store : Store) :
  uniqueIds store -> uniqueIds (deleteBill env billId store).1.
Proof.
  intros U. unfold deleteBill. destruct (hasBill store billId); [|exact U].
  unfold uniqueIds. simpl. apply NoDup_removeFirst, U.
Qed.

Lemma setPaid_bills (env : Env) (billId : string) (req : ParseResult)
  (store : Store) :
  bills (setPaid env billId req store).1 = bills store.
Proof.
  unfold setPaid. destruct req as [m|body]; [reflexivity|].
  destruct (hasBill store billId); reflexivity.
Qed.

Lemma registerToken_bills (env : Env) (req : ParseResult) (store : Store) :
  bills (registerToken env req store).1 = bills store /\
  payments (registerToken env req store).1 = payments store.
Proof.
  unfold registerToken. destruct req as [m|body]; [auto|].
  destruct (truthy (field body "token")); simpl; [|auto].
  destruct (List.find _ (pushTokens store)); auto.
Qed.

Lemma unregisterToken_bills (env : Env) (req : ParseResult) (store : Store) :
  bills (unregisterToken env req store).1 = bills store /\
  payments (unregisterToken env req store).1 = payments store.
Proof.
  unfold unregisterToken. destruct req as [m|body]; [auto|].
  destruct (truthy (field body "token")); auto.
Qed.

Lemma handle_uniqueIds (env : Env) (r : Request) (store : Store) :
  uniqueIds store -> uniqueIds (handle env r store).1.
Proof.
  intros U. destruct r; simpl.
  - exact U.
  - apply createBill_uniqueIds, U.
  - apply updateBill_uniqueIds, U.
  - apply deleteBill_uniqueIds, U.
  - unfold uniqueIds. rewrite setPaid_bills. exact U.
  - unfold uniqueIds. rewrite (proj1 (registerToken_bills _ _ _)). exact U.
  - unfold uniqueIds. rewrite (proj1 (unregisterToken_bills _ _ _)). exact U.
Qed.

(** X1: bill ids stay unique: the seed has no bills, every request served
    on a store with unique ids leaves a store with unique ids, and so every
    store reached from the seed has unique ids. *)
Theorem bill_ids_unique :
  uniqueIds seed /\
  (forall (env : Env) (r : Request) (store : Store),
     uniqueIds store -> uniqueIds (handle env r store).1) /\
  (forall store : Store, reachable store -> uniqueIds store).
Proof.
  split; [constructor|]. split; [apply handle_uniqueIds|].
  induction 1 as [|env r store R IH]; [constructor|].
  apply handle_uniqueIds, IH.
Qed.

End IdInvariant.

(** ** Requests on a bill id *)

Lemma find_absent (billId : string) (l : list Bill) :
  ~ In billId (map id l) ->
  List.find (fun b => String.eqb (id b) billId) l = None.
Proof.
  induction l as [|a r IH]; simpl; [reflexivity|].
  intros N. destruct (String.eqb_spec (id a) billId) as [E|E].
  - exfalso. apply N. left. exact E.
  - apply IH. intros I. apply N. right. exact I.
Qed.

Lemma hasBill_absent (store : Store) (billId : string) :
  ~ In billId (map id (bills store)) -> hasBill store billId = false.
Proof.
  intros N. destruct (hasBill store billId) eqn:F; [|reflexivity].
  apply hasBill_In in F. contradiction.
Qed.

(** With unique ids, the bill [arr.find] returns is the one bill of that id,
    and updating it in place is a map over the list. *)
Lemma find_unique (billId : string) (b : Bill) (l : list Bill) :
  List.NoDup (map id l) -> In b l -> id b = billId ->
  List.find (fun c => String.eqb (id c) billId) l = Some b.
Proof.
  induction l as [|a r IH]; simpl; [intros _ []|].
  intros N I E. apply List.NoDup_cons_iff in N. destruct N as [Na Nr].
  destruct (String.eqb_spec (id a) billId) as [Ea|Ea].
  - destruct I as [->|I]; [reflexivity|].
    exfalso. apply Na. rewrite Ea, <- E. apply in_map. exact I.
  - destruct I as [->|I]; [contradiction|]. apply IH; assumption.
Qed.

Lemma updateFirst_map (billId : string) (f : Bill -> Bill) (l : list Bill) :
  List.NoDup (map id l) ->
  updateFirst (fun c => String.eqb (id c) billId) f l
  = map (fun c => if String.eqb (id c) billId then f c else c) l.
Proof.
  induction l as [|a r IH]; simpl; [reflexivity|].
  intros N. apply List.NoDup_cons_iff in N. destruct N as [Na Nr].
  destruct (String.eqb_spec (id a) billId) as [E|E].
  - f_equal. rewrite <- (map_id r) at 1. apply map_ext_in. intros c I.
    destruct (String.eqb_spec (id c) billId) as [Ec|Ec]; [|reflexivity].
    exfalso. apply Na. rewrite E, <- Ec. apply in_map. exact I.
  - rewrite (IH Nr). reflexivity.
Qed.

Section BillFacts.
Context `{Host}.

(** X2: on an id no stored bill has, PUT, DELETE and the paid toggle answer
    404 and leave the store as it is. *)
Theorem unknown_bill_not_found (env : Env) (billId : string) (body : Body)
  (store : Store) :
  ~ In billId (map id (bills store)) ->
  updateBill env billId (BodyParsed body) store = (store, notFound) /\
  deleteBill env billId store = (store, notFound) /\
  setPaid env billId (BodyParsed body) store = (store, notFound).
Proof.
  intros N. split; [|split].
  - unfold updateBill. rewrite (find_absent billId _ N). reflexivity.
  - unfold deleteBill. rewrite (hasBill_absent store billId N). reflexivity.
  - apply setPaid_not_found, hasBill_absent, N.
Qed.

(** X3: in a store with unique ids, DELETE removes exactly the bill of
    that id and keeps the others in order; the id is then unknown, so the
    projection of no month lists it and a later request on it gets 404. *)
Theorem deleteBill_removes_bill (env env' : Env) (billId : string) (body : Body)
  (store : Store) :
  uniqueIds store ->
  In billId (map id (bills store)) ->
  bills (deleteBill env billId store).1
    = List.filter (fun b => negb (String.eqb (id b) billId)) (bills store) /\
  S (length (bills (deleteBill env billId store).1)) = length (bills store) /\
  ~ In billId (map id (bills (deleteBill env billId store).1)) /\
  (forall M pb,
     In pb (withPaymentStatus (deleteBill env billId store).1 M) ->
     id (bill pb) <> billId) /\
  setPaid env' billId (BodyParsed body) (deleteBill env billId store).1
    = ((deleteBill env billId store).1, notFound).
Proof.
  intros U I. assert (F : hasBill store billId = true) by (apply hasBill_In, I).
  assert (B : bills (deleteBill env billId store).1
              = List.filter (fun b => negb (String.eqb (id b) billId)) (bills store)).
  { unfold deleteBill. rewrite F. simpl. apply removeFirst_filter, U. }
  assert (N : ~ In billId (map id (bills (deleteBill env billId store).1))).
  { rewrite B, in_map_iff. intros (b & E & Ib). apply filter_In in Ib.
    destruct Ib as [_ Nb]. apply negb_true_iff, String.eqb_neq in Nb. auto. }
  split; [exact B|]. split; [|split; [exact N|split]].
  - unfold deleteBill. rewrite F. simpl. clear B N U F.
    induction (bills store) as [|a r IH]; simpl in *; [destruct I|].
    destruct (String.eqb_spec (id a) billId) as [E|E]; [reflexivity|].
    simpl. f_equal. apply IH. destruct I as [I|I]; [contradiction | exact I].
  - intros M pb Ipb E. apply N.
    apply (in_map (fun x => id (bill x))) in Ipb.
    rewrite <- map_map, withPaymentStatus_bill, E in Ipb. exact Ipb.
  - apply setPaid_not_found, hasBill_absent, N.
Qed.

(** X4: in a store with unique ids, PUT on a stored bill replaces that bill
    in place by its update and touches nothing else: ids, order, the other
    bills, the payments and the tokens stay; a field the body does not carry
    keeps its value, and a body carrying none of the four fields leaves the
    store as it is. *)
Theorem updateBill_in_place (env : Env) (billId : string) (body : Body)
  (store : Store) (b : Bill) :
  uniqueIds store ->
  In b (bills store) ->
  id b = billId ->
  updateBill env billId (BodyParsed body) store
  = ({| bills :=
          map (fun c => if String.eqb (id c) billId then applyUpdate body c else c)
              (bills store);
        payments := payments store;
        pushTokens := pushTokens store |},
     afterPersist env (mkResponse 200 (PBill (applyUpdate body b)))) /\
  id (applyUpdate body b) = id b /\
  (field body "name" = JUndefined -> name (applyUpdate body b) = name b) /\
  (field body "dueDay" = JUndefined -> dueDay (applyUpdate body b) = dueDay b) /\
  (field body "amount" = JUndefined -> amount (applyUpdate body b) = amount b) /\
  (field body "notes" = JUndefined -> notes (applyUpdate body b) = notes b) /\
  (field body "name" = JUndefined -> field body "dueDay" = JUndefined ->
   field body "amount" = JUndefined -> field body "notes" = JUndefined ->
   (updateBill env billId (BodyParsed body) store).1 = store).
Proof.
  intros U I E.
  assert (R : updateBill env billId (BodyParsed body) store
    = ({| bills :=
            map (fun c => if String.eqb (id c) billId then applyUpdate body c else c)
                (bills store);
          payments := payments store;
          pushTokens := pushTokens store |},
       afterPersist env (mkResponse 200 (PBill (applyUpdate body b))))).
  { unfold updateBill. rewrite (find_unique billId b _ U I E).
    rewrite (updateFirst_map billId _ _ U). reflexivity. }
  split; [exact R|]. split; [reflexivity|].
  unfold applyUpdate.
  split; [intros ->; reflexivity|]. split; [intros ->; reflexivity|].
  split; [intros ->; reflexivity|]. split; [intros ->; reflexivity|].
  intros A B C D. rewrite R. simpl. destruct store as [bs pay toks]. simpl.
  f_equal. rewrite <- (map_id bs) at 2. apply map_ext. intros c.
  destruct (String.eqb (id c) billId); [|reflexivity].
  unfold applyUpdate. rewrite A, B, C, D. destruct c. reflexivity.
Qed.

(** X5: PUT never changes who is paid: for every month, the ids and paid
    flags the projection lists after the update are those it listed before,
    in the same order. *)
Theorem updateBill_keeps_flags (env : Env) (billId : string) (req : ParseResult)
  (store : Store) (M : string) :
  map (fun pb => (id (bill pb), isPaid pb))
      (withPaymentStatus (updateBill env billId req store).1 M)
  = map (fun pb => (id (bill pb), isPaid pb)) (withPaymentStatus store M).
Proof.
  assert (G : forall s : Store,
            map (fun pb => (id (bill pb), isPaid pb)) (withPaymentStatus s M)
            = map (fun i => (i, default false (default ∅ (payments s !! M) !! i)))
                  (map id (bills s))).
  { intros s0. unfold withPaymentStatus. rewrite !map_map. reflexivity. }
  rewrite !G. unfold updateBill. destruct req as [m|body]; [reflexivity|].
  destruct (List.find _ (bills store)); [|reflexivity].
  simpl. rewrite map_id_updateFirst by reflexivity. reflexivity.
Qed.

End BillFacts.

(** ** Creation *)

Section CreateFacts.
Context `{Host}.

(** The two ways POST /api/bills ends: an answer that leaves the store, or
    the new bill appended. *)
Lemma createBill_cases (env : Env) (req : ParseResult) (store : Store) :
  ((createBill env req store).1 = store /\
   (statusCode (createBill env req store).2 = 400 \/
    statusCode (createBill env req store).2 = 409 \/
    statusCode (createBill env req store).2 = 500)) \/
  (exists body billId,
     req = BodyParsed body /\
     billIdOf env body = Some billId /\
     hasBill store billId = false /\
     nameMissing body = false /\
     dueDayInvalid body = false /\
     createBill env req store
     = ({| bills := bills store ++ [newBill billId body];
           payments := payments store;
           pushTokens := pushTokens store |},
        afterPersist env (mkResponse 201 (PBill (newBill billId body))))).
Proof.
  destruct req as [m|body]; [left; simpl; auto|].
  destruct (nameMissing body) eqn:N.
  { left. unfold createBill. rewrite N. simpl. auto. }
  destruct (dueDayInvalid body) eqn:D.
  { left. unfold createBill. rewrite N, D. simpl. auto. }
  destruct (billIdOf env body) as [billId|] eqn:I.
  - rewrite (createBill_checked env body store billId N D I).
    destruct (hasBill store billId) eqn:F.
    + left. simpl. auto.
    + right. exists body, billId. repeat split; auto.
  - left. unfold createBill. rewrite N, D, I. simpl. auto.
Qed.

(** X6: when POST /api/bills answers 201 with a bill, that bill has a new
    id and is appended after the stored bills, payments and tokens stay, and
    in a store whose own payment marks all belong to bills the projection
    of a month, with the inherited reads, is the old one followed by the new
    bill, which is unpaid unless its id names a member of
    [Object.prototype], and then paid; the stored day of month is never
    NaN. *)
Theorem createBill_created (env : Env) (req : ParseResult) (store : Store) (b : Bill) :
  marksHaveBills store ->
  (createBill env req store).2 = mkResponse 201 (PBill b) ->
  ~ In (id b) (map id (bills store)) /\
  (createBill env req store).1
    = {| bills := bills store ++ [b];
         payments := payments store;
         pushTokens := pushTokens store |} /\
  (forall M l,
     withPaymentStatus_js store M = Some l ->
     withPaymentStatus_js (createBill env req store).1 M
     = Some (l ++ [{| bill := b; isPaid := protoMember (id b) |}])%list) /\
  isNaN (dueDay b) = false.
Proof.
  intros Inv R.
  destruct (createBill_cases env req store) as [[_ St]|(body & billId & -> & I & F & N & D & E)].
  - rewrite R in St. simpl in St. destruct St as [St|[St|St]]; discriminate.
  - rewrite E in R |- *. simpl in R |- *. unfold afterPersist in R.
    destruct (persistOk env); [|discriminate].
    injection R as <-. simpl.
    assert (Nin : ~ In billId (map id (bills store))).
    { intros I'. apply hasBill_In in I'. congruence. }
    split; [exact Nin|]. split; [reflexivity|]. split.
    + intros M l. unfold withPaymentStatus_js, readMonth. cbn [bills payments].
      destruct (payments store !! M) as [marks|] eqn:L.
      * intros El. injection El as <-. rewrite map_app. simpl.
        do 3 f_equal. unfold readMark.
        destruct (marks !! billId) as [v|] eqn:K; [|reflexivity].
        rewrite (Inv M marks billId L (ex_intro _ v K)) in F. discriminate.
      * destruct (protoMember M); [discriminate|].
        intros El. injection El as <-. rewrite map_app. reflexivity.
    + apply orb_false_iff in D. apply D.
Qed.

(** X7: POST /api/bills changes the store only when it stores a bill: with
    writes succeeding, every answer other than 201 leaves the whole store as
    it was. *)
Theorem createBill_rejected (env : Env) (req : ParseResult) (store : Store) :
  persistOk env = true ->
  statusCode (createBill env req store).2 <> 201 ->
  (createBill env req store).1 = store.
Proof.
  intros P Ns.
  destruct (createBill_cases env req store) as [[St _]|(body & billId & -> & I & F & N & D & E)];
    [exact St|].
  exfalso. apply Ns. rewrite E. unfold afterPersist. rewrite P. reflexivity.
Qed.

End CreateFacts.

(** ** The paid toggle composed with itself *)

Section ToggleFacts.
Context `{Host}.

(** X9: with the inherited reads, a paid toggle that has a result is
    overridden by a later toggle of the same bill and month key, whatever
    the bill id but [__proto__] and whenever the later request is served:
    the later request has a result on the first store, and after the
    earlier request its store and answer are those it has alone.  In
    particular repeating a toggle changes nothing more. *)
Theorem setPaid_last_wins (env env' : Env) (billId : string) (body1 body2 : Body)
  (store store1 : Store) (answer1 : Response) :
  setPaid_js env billId (BodyParsed body1) store = Some (store1, answer1) ->
  toString (monthOf env body1) = toString (monthOf env' body2) ->
  billId <> "__proto__" ->
  is_Some (setPaid_js env' billId (BodyParsed body2) store) /\
  setPaid_js env' billId (BodyParsed body2) store1
  = setPaid_js env' billId (BodyParsed body2) store.
Proof.
  intros E1 K Ne.
  destruct (hasBill store billId) eqn:F.
  - assert (D1 : readMonth (payments store) (toString (monthOf env body1))
                 <> InheritedMonth).
    { intros X. unfold setPaid_js in E1. rewrite F, X in E1. discriminate. }
    rewrite (setPaid_js_found env billId body1 store F D1) in E1.
    injection E1 as <- _.
    assert (D2 : readMonth (payments store) (toString (monthOf env' body2))
                 <> InheritedMonth) by (rewrite <- K; exact D1).
    rewrite (setPaid_js_found env' billId body2 store F D2).
    split; [eauto|].
    rewrite setPaid_js_found.
    + cbn [bills payments pushTokens]. rewrite K.
      rewrite lookup_insert_eq. cbn [default from_option]. unfold Datatypes.id.
      rewrite insert_insert_eq.
      rewrite !toggleMark_ordinary by exact Ne.
      destruct (truthy (field body1 "isPaid")), (truthy (field body2 "isPaid"));
        cbv iota.
      * rewrite insert_insert_eq. reflexivity.
      * rewrite delete_insert_eq. reflexivity.
      * rewrite insert_delete_eq. reflexivity.
      * rewrite delete_delete_eq. reflexivity.
    + exact F.
    + cbn [payments]. rewrite K, readMonth_insert_eq. discriminate.
  - destruct (setPaid_js_not_found env billId (BodyParsed body1) store F) as [a E].
    rewrite E in E1. injection E1 as <- _.
    destruct (setPaid_js_not_found env' billId (BodyParsed body2) store F) as [a2 E2].
    rewrite E2. split; [eauto | reflexivity].
Qed.

End ToggleFacts.

(** ** The two readings of the payments *)

Section Readings.
Context `{Host}.

(** X24: on keys that name no member of [Object.prototype] the handlers
    given on the finite maps alone are the handlers with the inherited
    reads: the projection of such a month, when no bill id names a member,
    and the paid toggle of such a bill id under such a month key. *)
Theorem finite_map_reading (env : Env) (store : Store) :
  (forall month,
     protoMember month = false ->
     Forall (fun b => protoMember (id b) = false) (bills store) ->
     withPaymentStatus_js store month = Some (withPaymentStatus store month)) /\
  (forall billId req,
     match req with
     | BodyError _ => True
     | BodyParsed body => protoMember (toString (monthOf env body)) = false
     end ->
     protoMember billId = false ->
     setPaid_js env billId req store = Some (setPaid env billId req store)).
Proof.
  split.
  - intros month Pm Hall. rewrite withPaymentStatus_js_defined.
    + unfold withPaymentStatus. f_equal. apply map_ext_in. intros b I.
      rewrite List.Forall_forall in Hall. specialize (Hall b I). simpl in Hall.
      unfold readMark. rewrite Hall.
      destruct (default ∅ (payments store !! month) !! id b); reflexivity.
    + unfold readMonth. destruct (payments store !! month); [discriminate|].
      rewrite Pm. discriminate.
  - intros billId [m|body] Pm Pb; [reflexivity|].
    assert (Ne : billId <> "__proto__") by (intros ->; discriminate).
    destruct (hasBill store billId) eqn:F.
    + rewrite setPaid_js_found, (setPaid_found env billId body store F); trivial.
      * rewrite Pb, orb_false_r. f_equal. f_equal.
        -- f_equal. apply map_eq. intros month. rewrite markPaid_lookup.
           destruct (decide (toString (monthOf env body) = month)) as [<-|K].
           ++ rewrite lookup_insert_eq, toggleMark_ordinary by exact Ne. reflexivity.
           ++ rewrite lookup_insert_ne by exact K. reflexivity.
        -- do 3 f_equal. rewrite markPaid_lookup, decide_True by reflexivity.
           simpl. destruct (truthy (field body "isPaid")).
           ++ rewrite lookup_insert_eq. reflexivity.
           ++ rewrite lookup_delete_eq. reflexivity.
      * unfold readMonth. destruct (payments store !! _); [discriminate|].
        rewrite Pm. discriminate.
    + rewrite (setPaid_not_found env billId body store F).
      unfold setPaid_js. rewrite F. reflexivity.
Qed.

End Readings.

(** ** Unregistering *)

Lemma filter_idem {A : Type} (f : A -> bool) (l : list A) :
  List.filter f (List.filter f l) = List.filter f l.
Proof.
  induction l as [|a r IH]; simpl; [reflexivity|].
  destruct (f a) eqn:E; simpl; [rewrite E, IH|]; auto.
Qed.

Lemma filter_all {A : Type} (f : A -> bool) (l : list A) :
  (forall x, In x l -> f x = true) -> List.filter f l = l.
Proof.
  induction l as [|a r IH]; simpl; [reflexivity|].
  intros Hall. rewrite (Hall a) by auto. rewrite IH by auto. reflexivity.
Qed.

Lemma registrationsOf_none (v : JVal) (l : list PushToken) :
  registrationsOf v l = [] ->
  forall e, In e l -> strict_eq (token e) v = false.
Proof.
  unfold registrationsOf. intros E e I.
  destruct (strict_eq (token e) v) eqn:S; [|reflexivity].
  assert (I' : In e (List.filter (fun entry => strict_eq (token entry) v) l)).
  { apply filter_In. auto. }
  rewrite E in I'. destruct I'.
Qed.

(** X10: POST /api/push/unregister with a truthy token removes every stored
    registration whose token is identical to it and keeps the others in
    order: the token list afterwards is the stored list filtered by
    non-identity, and a kept registration stays between what is kept of the
    registrations before it and what is kept of those after it; bills and
    payments stay; repeating the request removes nothing more, and a token
    with no stored registration leaves the list as it is. *)
Theorem unregisterToken_removes (env : Env) (body : Body) (store : Store) :
  truthy (field body "token") = true ->
  pushTokens (unregisterToken env (BodyParsed body) store).1
  = List.filter
      (fun entry => negb (strict_eq (token entry) (field body "token")))
      (pushTokens store) /\
  (forall before e after,
     pushTokens store = (before ++ e :: after)%list ->
     strict_eq (token e) (field body "token") = false ->
     pushTokens (unregisterToken env (BodyParsed body) store).1
     = (pushTokens (unregisterToken env (BodyParsed body)
                      {| bills := bills store; payments := payments store;
                         pushTokens := before |}).1
        ++ e ::
        pushTokens (unregisterToken env (BodyParsed body)
                      {| bills := bills store; payments := payments store;
                         pushTokens := after |}).1)%list) /\
  registrationsOf (field body "token")
    (pushTokens (unregisterToken env (BodyParsed body) store).1) = [] /\
  (forall e, In e (pushTokens store) ->
     strict_eq (token e) (field body "token") = false ->
     In e (pushTokens (unregisterToken env (BodyParsed body) store).1)) /\
  (forall e, In e (pushTokens (unregisterToken env (BodyParsed body) store).1) ->
     In e (pushTokens store)) /\
  bills (unregisterToken env (BodyParsed body) store).1 = bills store /\
  payments (unregisterToken env (BodyParsed body) store).1 = payments store /\
  (unregisterToken env (BodyParsed body)
     (unregisterToken env (BodyParsed body) store).1).1
  = (unregisterToken env (BodyParsed body) store).1 /\
  (registrationsOf (field body "token") (pushTokens store) = [] ->
   pushTokens (unregisterToken env (BodyParsed body) store).1 = pushTokens store).
Proof.
  intros T. unfold unregisterToken. rewrite T. simpl.
  split; [reflexivity|]. split.
  { intros before e after E N. rewrite E, List.filter_app. simpl.
    rewrite N. reflexivity. }
  split; [|split; [|split; [|split; [reflexivity|split; [reflexivity|split]]]]].
  - unfold registrationsOf.
    destruct (List.filter _ (List.filter _ (pushTokens store))) as [|e t] eqn:E;
      [reflexivity|].
    assert (I : In e (e :: t)) by (left; reflexivity).
    rewrite <- E in I. apply filter_In in I. destruct I as [I S].
    apply filter_In in I. destruct I as [_ N]. rewrite S in N. discriminate.
  - intros e I N. apply filter_In. rewrite N. auto.
  - intros e I. apply filter_In in I. tauto.
  - rewrite filter_idem. reflexivity.
  - intros N. apply filter_all. intros x I.
    rewrite (registrationsOf_none _ _ N x I). reflexivity.
Qed.

(** X11: registering a truthy token that is no array or object and has no
    stored registration, then unregistering it, gives back the token list
    there was. *)
Theorem register_then_unregister (env env' : Env) (body : Body) (store : Store) :
  truthy (field body "token") = true ->
  isComposite (field body "token") = false ->
  registrationsOf (field body "token") (pushTokens store) = [] ->
  pushTokens
    (unregisterToken env' (BodyParsed body)
       (registerToken env (BodyParsed body) store).1).1
  = pushTokens store.
Proof.
  intros T C N. pose proof (registrationsOf_none _ _ N) as Nf.
  unfold unregisterToken, registerToken. rewrite T. simpl.
  destruct (List.find _ (pushTokens store)) as [e|] eqn:F.
  - apply find_some in F. destruct F as [I S]. rewrite (Nf e I) in S. discriminate.
  - simpl. rewrite List.filter_app. simpl.
    rewrite (strict_eq_refl _ T C). simpl. rewrite app_nil_r.
    apply filter_all. intros x I. rewrite (Nf x I). reflexivity.
Qed.

(** ** What each request leaves alone *)

Section FrameFacts.
Context `{Host}.

Lemma createBill_payments (env : Env) (req : ParseResult) (store : Store) :
  payments (createBill env req store).1 = payments store.
Proof.
  destruct (createBill_cases env req store) as [[St _]|(body & billId & -> & I & F & N & D & E)].
  - rewrite St. reflexivity.
  - rewrite E. reflexivity.
Qed.

Lemma updateBill_payments (env : Env) (billId : string) (req : ParseResult)
  (store : Store) :
  payments (updateBill env billId req store).1 = payments store.
Proof.
  unfold updateBill. destruct req as [m|body]; [reflexivity|].
  destruct (List.find _ (bills store)); reflexivity.
Qed.

(** X12: the bill requests never touch the push tokens, the token requests
    never touch bills or payments, creation and update never touch the
    payments, the paid toggle never touches the bills, and listing changes
    nothing. *)
Theorem handle_frame (env : Env) (r : Request) (store : Store) :
  match r with
  | ListBills _ => (handle env r store).1 = store
  | CreateBill _ | UpdateBill _ _ =>
      payments (handle env r store).1 = payments store /\
      pushTokens (handle env r store).1 = pushTokens store
  | DeleteBill _ =>
      pushTokens (handle env r store).1 = pushTokens store
  | SetPaid _ _ =>
      bills (handle env r store).1 = bills store /\
      pushTokens (handle env r store).1 = pushTokens store
  | RegisterToken _ | UnregisterToken _ =>
      bills (handle env r store).1 = bills store /\
      payments (handle env r store).1 = payments store
  end.
Proof.
  destruct r; simpl.
  - reflexivity.
  - split; [apply createBill_payments | apply createBill_pushTokens].
  - split; [apply updateBill_payments | apply updateBill_pushTokens].
  - apply deleteBill_pushTokens.
  - split; [apply setPaid_bills | apply setPaid_pushTokens].
  - apply registerToken_bills.
  - apply unregisterToken_bills.
Qed.

End FrameFacts.

(** ** Totals of particular months *)

Section MoreTotals.
Context `{Host} {R : Rounding}.
Hypothesis laws : RoundingLaws.

Lemma total_fold_bills_js (bs : list ProjectedBill) (acc : xnumber) :
  fold_left (fun sum pb => xadd sum (ofNumber (amountOrZero (bill pb)))) bs acc
  = fold_left (fun sum b => xadd sum (ofNumber (amountOrZero b))) (map bill bs) acc.
Proof.
  revert acc. induction bs as [|pb bs IH]; intros acc; simpl; [reflexivity|].
  apply IH.
Qed.

Lemma total_kept (bs : list ProjectedBill) (acc : xnumber) :
  kept acc ->
  kept (fold_left (fun sum pb => xadd sum (ofNumber (amountOrZero (bill pb)))) bs acc).
Proof.
  revert acc. induction bs as [|pb bs IH]; intros acc K; simpl; [exact K|].
  apply IH. destruct (amountOrZero_finite (bill pb)) as (a & Ea & _).
  rewrite Ea. simpl. destruct acc as [|x|s]; simpl in *; [contradiction| |exact I].
  destruct (roundNumber (x + a)) as [|r|s] eqn:E; simpl.
  - exact (round_number laws _ E).
  - exact (round_again laws _ _ E).
  - exact I.
Qed.

Lemma paid_fold_unpaid (bs : list ProjectedBill) (acc : xnumber) :
  (forall pb, In pb bs -> isPaid pb = false) ->
  xeq acc (XFin 0) = true ->
  xeq
    (fold_left
       (fun sum pb =>
          xadd sum (if isPaid pb then ofNumber (amountOrZero (bill pb)) else XFin 0))
       bs acc)
    (XFin 0) = true.
Proof.
  revert acc. induction bs as [|pb bs IH]; intros acc U Z; simpl; [exact Z|].
  rewrite (U pb) by (left; reflexivity).
  apply IH; [intros x I; apply U; right; exact I|].
  destruct acc as [|z|s]; simpl in Z; try discriminate.
  apply Qeq_bool_iff in Z. simpl.
  apply (xeq_trans _ (roundNumber 0)); [|apply (round_zero laws)].
  apply (round_equal laws). rewrite Z. ring.
Qed.

Lemma paid_fold_all_paid (bs : list ProjectedBill) (acc : xnumber) :
  (forall pb, In pb bs -> isPaid pb = true) ->
  fold_left
    (fun sum pb =>
       xadd sum (if isPaid pb then ofNumber (amountOrZero (bill pb)) else XFin 0))
    bs acc
  = fold_left (fun sum pb => xadd sum (ofNumber (amountOrZero (bill pb)))) bs acc.
Proof.
  revert acc. induction bs as [|pb bs IH]; intros acc U; simpl; [reflexivity|].
  rewrite (U pb) by (left; reflexivity). apply IH. intros x I. apply U.
  right. exact I.
Qed.

(** Subtracting a zero from a kept Number gives it back. *)
Lemma xsub_zero (t p : xnumber) :
  kept t -> xeq p (XFin 0) = true -> xeq (xsub t p) t = true.
Proof.
  intros K Z. destruct p as [|z|s]; simpl in Z; try discriminate.
  apply Qeq_bool_iff in Z. unfold xsub.
  destruct t as [|y|s]; simpl in *; [contradiction| |apply eqb_reflx].
  apply (xeq_trans _ (roundNumber y)); [|exact K].
  apply (round_equal laws). rewrite Z. ring.
Qed.


End MoreTotals.

(** ** Loading: the other outcomes *)

(** X14: [ensureStoreFile] returns what [JSON.parse] makes of an existing
    file and writes nothing; a read error other than ENOENT, and a failing
    write of the seed, are thrown on with nothing written; and once the seed
    is written, loading again reads it back without writing, provided
    [JSON.parse] reads the seed text as the seed. *)
Theorem ensureStoreFile_other_outcomes
  (JSON_parse : string -> option Document) (fs : FS) :
  (forall raw doc, dataDir fs = Dir (Regular raw) -> JSON_parse raw = Some doc ->
   ensureStoreFile JSON_parse fs = (fs, Returned doc)) /\
  (forall code, dataDir fs = Dir (Unreadable code) ->
   String.eqb code "ENOENT" = false ->
   ensureStoreFile JSON_parse fs = (fs, Thrown (SystemError code))) /\
  (forall code, fileOf fs = Absent -> writeError fs = Some code ->
   ensureStoreFile JSON_parse fs = (fs, Thrown (SystemError code))) /\
  (JSON_parse seedText = Some (StoreDoc seed) ->
   fileOf fs = Absent -> writeError fs = None ->
   ensureStoreFile JSON_parse (ensureStoreFile JSON_parse fs).1
   = ((ensureStoreFile JSON_parse fs).1, Returned (StoreDoc seed))).
Proof.
  destruct fs as [d w]. unfold fileOf. simpl.
  split; [|split; [|split]].
  - intros raw doc -> P. unfold ensureStoreFile. simpl. rewrite P. reflexivity.
  - intros code -> N. unfold ensureStoreFile, recover. simpl. rewrite N.
    reflexivity.
  - intros code A ->. destruct d as [|f]; [reflexivity|]. subst f. reflexivity.
  - intros P A ->.
    assert (E : ensureStoreFile JSON_parse {| dataDir := d; writeError := None |}
                = ({| dataDir := Dir (Regular seedText); writeError := None |},
                   Returned (StoreDoc seed))).
    { destruct d as [|f]; [reflexivity|]. subst f. reflexivity. }
    rewrite E. unfold ensureStoreFile. simpl. rewrite P. reflexivity.
Qed.

(** ** The request body *)

Lemma append_nil_r (s : string) : s +:+ EmptyString = s.
Proof.
  induction s as [|a r IH]; [reflexivity|].
  change (String a (r +:+ EmptyString) = String a r). rewrite IH. reflexivity.
Qed.

Lemma append_assoc (a b c : string) : (a +:+ b) +:+ c = a +:+ (b +:+ c).
Proof.
  induction a as [|x r IH]; [reflexivity|].
  change (String x ((r +:+ b) +:+ c) = String x (r +:+ (b +:+ c))).
  rewrite IH. reflexivity.
Qed.

Lemma length_append (a b : string) :
  String.length (a +:+ b) = (String.length a + String.length b)%nat.
Proof.
  induction a as [|x r IH]; [reflexivity|].
  change (S (String.length (r +:+ b)) = S (String.length r + String.length b)).
  rewrite IH. reflexivity.
Qed.

Section BodyFacts.
Variable JSON_parse_body : string -> option Body.

(** What the listeners make of the chunks still to come, [body] being within
    the limit. *)
Lemma receive_joined (l : list string) (e : StreamEnd) :
  forall body,
    Z.of_nat (String.length body) <= payloadLimit ->
    receive JSON_parse_body body l e =
    if payloadLimit <? Z.of_nat (String.length (body +:+ joinChunks l))
    then BodyError "Payload too large"
    else match e with
         | StreamEnded => onEnd JSON_parse_body (body +:+ joinChunks l)
         | StreamFailed message => BodyError message
         end.
Proof.
  induction l as [|chunk rest IH]; intros body Hb; simpl.
  - rewrite append_nil_r.
    destruct (Z.ltb_spec payloadLimit (Z.of_nat (String.length body))); [lia|].
    reflexivity.
  - rewrite <- append_assoc.
    destruct (Z.ltb_spec payloadLimit (Z.of_nat (String.length (body +:+ chunk))))
      as [Hc|Hc].
    + destruct (Z.ltb_spec payloadLimit
                  (Z.of_nat (String.length ((body +:+ chunk) +:+ joinChunks rest))))
        as [_|Hn]; [reflexivity|].
      rewrite length_append in Hn. lia.
    + apply IH. exact Hc.
Qed.

(** X15: [parseJsonBody] depends on the chunks only through their
    concatenation: it rejects with Payload too large exactly when the whole
    body is longer than 1,000,000, however it is cut into chunks; otherwise a
    stream error is passed on, an empty body gives the empty object without
    parsing, and any other body gives what [JSON.parse] returns, or Invalid
    JSON when it throws. *)
Theorem parseJsonBody_whole_body (req : RequestStream) :
  parseJsonBody JSON_parse_body req =
  if payloadLimit <? Z.of_nat (String.length (joinChunks (chunks req)))
  then BodyError "Payload too large"
  else match ending req with
       | StreamFailed message => BodyError message
       | StreamEnded =>
           if String.eqb (joinChunks (chunks req)) EmptyString then BodyParsed ∅
           else match JSON_parse_body (joinChunks (chunks req)) with
                | Some parsed => BodyParsed parsed
                | None => BodyError "Invalid JSON"
                end
       end.
Proof.
  unfold parseJsonBody.
  rewrite (receive_joined (chunks req) (ending req) EmptyString)
    by (unfold payloadLimit; simpl; lia).
  change (EmptyString +:+ joinChunks (chunks req)) with (joinChunks (chunks req)).
  destruct (_ <? _); [reflexivity|]. destruct (ending req); reflexivity.
Qed.

End BodyFacts.

(** ** Routes *)

Lemma stripPrefix_Some (p s r : string) :
  stripPrefix p s = Some r <-> s = p +:+ r.
Proof.
  revert s. induction p as [|a p IH]; intros s; simpl.
  - split; [intros E; injection E as ->; reflexivity | intros ->; reflexivity].
  - destruct s as [|b s].
    + split; [discriminate|]. intros E. discriminate.
    + destruct (Ascii.eqb_spec a b) as [->|N].
      * rewrite IH. change (String b p +:+ r) with (String b (p +:+ r)).
        split; [intros ->; reflexivity | intros E; injection E; trivial].
      * change (String a p +:+ r) with (String a (p +:+ r)).
        split; [discriminate | intros E; injection E; intros; congruence].
Qed.

Lemma append_inj_l (p a b : string) : p +:+ a = p +:+ b -> a = b.
Proof.
  induction p as [|c p IH]; [trivial|].
  change (String c (p +:+ a) = String c (p +:+ b) -> a = b).
  intros E. injection E as E. apply IH, E.
Qed.

Lemma splitAtSlash_spec (s : string) :
  s = (splitAtSlash s).1 +:+ (splitAtSlash s).2 /\
  noSlash (splitAtSlash s).1 = true /\
  ((splitAtSlash s).2 = EmptyString \/
   exists t, (splitAtSlash s).2 = String "/"%char t).
Proof.
  induction s as [|c r (E & N & T)]; simpl.
  - auto.
  - destruct (isSlash c) eqn:S; simpl.
    + split; [reflexivity|]. split; [reflexivity|]. right.
      unfold isSlash in S. apply Ascii.eqb_eq in S. subst c. eauto.
    + destruct (splitAtSlash r) as [seg tail]. simpl in *.
      split; [change (String c r = String c (seg +:+ tail)); congruence|].
      rewrite S, N. auto.
Qed.

Lemma splitAtSlash_segment (seg t : string) :
  noSlash seg = true ->
  splitAtSlash (seg +:+ String "/"%char t) = (seg, String "/"%char t).
Proof.
  induction seg as [|c r IH]; intros N.
  - reflexivity.
  - simpl in N. apply andb_true_iff in N. destruct N as [Nc Nr].
    change (String c r +:+ String "/"%char t)
      with (String c (r +:+ String "/"%char t)).
    simpl. apply negb_true_iff in Nc. rewrite Nc, (IH Nr). reflexivity.
Qed.

Lemma noSlash_append_slash (seg t : string) :
  noSlash (seg +:+ String "/"%char t) = false.
Proof.
  induction seg as [|c r IH]; [reflexivity|].
  change (String c r +:+ String "/"%char t)
    with (String c (r +:+ String "/"%char t)).
  simpl. rewrite IH. apply andb_false_r.
Qed.

(** The bill pattern captures exactly the non-empty slash-free rest. *)
Lemma billIdMatch_Some (pathname raw : string) :
  billIdMatch pathname = Some raw <->
  pathname = "/api/bills/" +:+ raw /\ raw <> EmptyString /\ noSlash raw = true.
Proof.
  unfold billIdMatch.
  destruct (stripPrefix "/api/bills/" pathname) as [rest|] eqn:P.
  - apply stripPrefix_Some in P. subst pathname.
    destruct (String.eqb_spec rest EmptyString) as [Er|Er]; simpl.
    + split; [discriminate|]. intros (E & Ne & _).
      apply append_inj_l in E. congruence.
    + destruct (noSlash rest) eqn:N.
      * split.
        -- intros E. injection E as <-. auto.
        -- intros (E & _). apply append_inj_l in E. congruence.
      * split; [discriminate|]. intros (E & _ & Nr).
        apply append_inj_l in E. congruence.
  - split; [discriminate|]. intros (E & _).
    apply stripPrefix_Some in E. congruence.
Qed.

(** The paid pattern captures exactly the non-empty slash-free segment
    between the prefix and the final [/paid]. *)
Lemma paidMatch_Some (pathname raw : string) :
  paidMatch pathname = Some raw <->
  pathname = "/api/bills/" +:+ raw +:+ "/paid" /\
  raw <> EmptyString /\ noSlash raw = true.
Proof.
  unfold paidMatch.
  destruct (stripPrefix "/api/bills/" pathname) as [rest|] eqn:P.
  - apply stripPrefix_Some in P. subst pathname.
    destruct (splitAtSlash_spec rest) as (E & N & _).
    destruct (splitAtSlash rest) as [seg tail] eqn:Sp. simpl in E, N.
    split.
    + destruct (String.eqb_spec seg EmptyString) as [Es|Es]; simpl; [discriminate|].
      destruct (String.eqb_spec tail "/paid") as [Et|Et]; [|discriminate].
      intros R. injection R as <-. subst tail rest. auto.
    + intros (Ep & Ne & Nr). apply append_inj_l in Ep. rename Ep into Er.
      pose proof (splitAtSlash_segment raw "paid" Nr) as Sr.
      change (String "/"%char "paid") with "/paid" in Sr.
      rewrite Er, Sr in Sp. injection Sp as <- <-.
      destruct (String.eqb_spec raw EmptyString); [contradiction|]. reflexivity.
  - split; [discriminate|]. intros (E & _).
    apply stripPrefix_Some in E. congruence.
Qed.

Lemma prefixed_not_collection (pathname rest : string) :
  stripPrefix "/api/bills/" pathname = Some rest ->
  String.eqb pathname "/api/bills" = false.
Proof.
  intros P. destruct (String.eqb_spec pathname "/api/bills") as [->|]; [|reflexivity].
  vm_compute in P. discriminate.
Qed.

Lemma billIdMatch_prefixed (pathname raw : string) :
  billIdMatch pathname = Some raw ->
  exists rest, stripPrefix "/api/bills/" pathname = Some rest.
Proof.
  unfold billIdMatch. destruct (stripPrefix _ pathname); [eauto | discriminate].
Qed.

Lemma paidMatch_prefixed (pathname raw : string) :
  paidMatch pathname = Some raw ->
  exists rest, stripPrefix "/api/bills/" pathname = Some rest.
Proof.
  unfold paidMatch. destruct (stripPrefix _ pathname); [eauto | discriminate].
Qed.

(** A pathname the paid pattern captures is not captured by the bill
    pattern. *)
Lemma paidMatch_not_bill (pathname raw : string) :
  paidMatch pathname = Some raw -> billIdMatch pathname = None.
Proof.
  intros Pm. apply paidMatch_Some in Pm. destruct Pm as (E & _ & _).
  destruct (billIdMatch pathname) as [b|] eqn:B; [|reflexivity].
  apply billIdMatch_Some in B. destruct B as (Eb & _ & Nb).
  rewrite E in Eb. apply append_inj_l in Eb. subst b.
  change "/paid" with (String "/"%char "paid") in Nb.
  rewrite noSlash_append_slash in Nb. discriminate.
Qed.

Ltac split_route E :=
  unfold route in E;
  repeat match type of E with
         | context [if ?c then _ else _] => destruct c eqn:?
         | context [match ?c with _ => _ end] => destruct c eqn:?
         end;
  try discriminate E.

Lemma route_paid (method pathname raw : string) :
  route method pathname = RoutePaid raw <->
  method = "POST" /\ paidMatch pathname = Some raw.
Proof.
  split.
  - intros E. split_route E; injection E as <-;
      (split; [apply String.eqb_eq; assumption | reflexivity]).
  - intros (-> & Pm). unfold route.
    destruct (paidMatch_prefixed _ _ Pm) as (rest & P).
    rewrite (prefixed_not_collection _ _ P), (paidMatch_not_bill _ _ Pm), Pm.
    reflexivity.
Qed.

Lemma route_update (method pathname raw : string) :
  route method pathname = RouteUpdate raw <->
  method = "PUT" /\ billIdMatch pathname = Some raw.
Proof.
  split.
  - intros E. split_route E; injection E as <-;
      (split; [apply String.eqb_eq; assumption | reflexivity]).
  - intros (-> & B). unfold route. rewrite B. reflexivity.
Qed.

Lemma route_delete (method pathname raw : string) :
  route method pathname = RouteDelete raw <->
  method = "DELETE" /\ billIdMatch pathname = Some raw.
Proof.
  split.
  - intros E. split_route E; injection E as <-;
      (split; [apply String.eqb_eq; assumption | reflexivity]).
  - intros (-> & B). unfold route. rewrite B. reflexivity.
Qed.

(** X17: the two bill patterns never both match: a pathname captured by
    the paid pattern is not captured by the bill pattern; a captured segment
    is never empty and holds no slash; and the paid toggle is reached exactly
    by POST on [/api/bills/<segment>/paid], update and delete exactly by PUT
    and DELETE on [/api/bills/<segment>]. *)
Theorem route_bill_paths (method pathname raw : string) :
  (paidMatch pathname = Some raw -> billIdMatch pathname = None) /\
  (route method pathname = RoutePaid raw <->
   method = "POST" /\ pathname = "/api/bills/" +:+ raw +:+ "/paid" /\
   raw <> EmptyString /\ noSlash raw = true) /\
  (route method pathname = RouteUpdate raw <->
   method = "PUT" /\ pathname = "/api/bills/" +:+ raw /\
   raw <> EmptyString /\ noSlash raw = true) /\
  (route method pathname = RouteDelete raw <->
   method = "DELETE" /\ pathname = "/api/bills/" +:+ raw /\
   raw <> EmptyString /\ noSlash raw = true).
Proof.
  split; [apply paidMatch_not_bill|].
  rewrite route_paid, route_update, route_delete.
  rewrite paidMatch_Some, billIdMatch_Some. tauto.
Qed.

(** A preflight request is answered whatever its path, and a request
    that is not a preflight and whose path is none of the fixed paths and
    starts with no [/api/bills/] is not found, whatever its method. *)
Theorem route_fallbacks (method pathname : string) :
  route "OPTIONS" pathname = RoutePreflight /\
  (method <> "OPTIONS" ->
   stripPrefix "/api/bills/" pathname = None ->
   pathname <> "/" -> pathname <> "/api/bills" ->
   pathname <> "/api/push/register" -> pathname <> "/api/push/unregister" ->
   pathname <> "/api/push/send-upcoming" -> pathname <> "/api/chat" ->
   route method pathname = RouteNotFound).
Proof.
  split; [reflexivity|].
  intros No P N1 N2 N3 N4 N5 N6. unfold route, billIdMatch, paidMatch.
  rewrite P.
  apply String.eqb_neq in No, N1, N2, N3, N4, N5, N6.
  rewrite No, N1, N2, N3, N4, N5, N6, !andb_false_r.
  destruct (String.eqb method "PUT"), (String.eqb method "DELETE"),
    (String.eqb method "POST"); reflexivity.
Qed.

(** ** The batch of POST /api/push/send-upcoming *)

Section SendFacts.
Context `{Host}.
Variable toFixed2 : number -> string.
Variable fetch : list Notification -> GatewayReply.

Lemma notificationsFor_to (monthKey : JVal) (up : list ProjectedBill)
  (tokens : list PushToken) :
  map to (notificationsFor toFixed2 monthKey up tokens) = map token tokens.
Proof. unfold notificationsFor. rewrite map_map. reflexivity. Qed.


End SendFacts.

(** ** The calendar *)

(** The date of a day number is a date of the calendar, and the day number
    of that date is the day number started from. *)
Lemma days_civil_days (n : Z) :
  daysFromCivil (civilFromDays n).1.1 (civilFromDays n).1.2
  + (civilFromDays n).2 - 1 = n /\
  0 <= (civilFromDays n).1.2 <= 11 /\ 1 <= (civilFromDays n).2 <= 31.
Proof.
  unfold daysFromCivil, civilFromDays. cbv zeta. cbn [fst snd].
  set (z := n + 719468).
  set (era := z / 146097).
  set (doe := z - era * 146097).
  assert (Hd : 0 <= doe < 146097).
  { subst doe era. Z.to_euclidean_division_equations. lia. }
  assert (Ed : doe = z - era * 146097) by reflexivity.
  clearbody doe.
  set (yoe := (doe - doe / 1460 + doe / 36524 - doe / 146096) / 365).
  set (doy := doe - (365 * yoe + yoe / 4 - yoe / 100)).
  set (mp := (5 * doy + 2) / 153).
  assert (B : 0 <= yoe <= 399 /\ 0 <= doy <= 365 /\ 0 <= mp <= 11 /\
              1 <= doy - (153 * mp + 2) / 5 + 1 <= 31).
  { subst yoe doy mp. Z.to_euclidean_division_equations. lia. }
  destruct B as (By & Bd & Bm & Bday).
  clearbody yoe. 

  destruct (Z.ltb_spec mp 10) as [L|L].
  - replace (mp + 3 - 1 + 1 <=? 2) with false by (symmetry; apply Z.leb_gt; lia).
    replace (mp + 3 <=? 2) with false by (symmetry; apply Z.leb_gt; lia).
    replace (2 <? mp + 3 - 1 + 1) with true by (symmetry; apply Z.ltb_lt; lia).
    replace ((yoe + era * 400 + 0) / 400) with era
      by (Z.to_euclidean_division_equations; lia).
    replace (mp + 3 - 1 + 1 - 3) with mp by lia.
    replace (yoe + era * 400 + 0 - era * 400) with yoe by lia.
    subst doy z. split; [|lia]. lia.
  - replace (mp - 9 - 1 + 1 <=? 2) with true by (symmetry; apply Z.leb_le; lia).
    replace (mp - 9 <=? 2) with true by (symmetry; apply Z.leb_le; lia).
    replace (2 <? mp - 9 - 1 + 1) with false by (symmetry; apply Z.ltb_ge; lia).
    replace ((yoe + era * 400 + 1 - 1) / 400) with era
      by (Z.to_euclidean_division_equations; lia).
    replace (mp - 9 - 1 + 1 + 9) with mp by lia.
    replace (yoe + era * 400 + 1 - 1 - era * 400) with yoe by lia.
    subst doy z. split; [|lia]. lia.
Qed.

Lemma truncate_integer (d : Z) : truncate (inject_Z d) = d.
Proof. unfold truncate, inject_Z. simpl. apply Z.quot_1_r. Qed.

Section CalendarFacts.
Context `{Host}.

(** X19: the month key of any instant is the year, a dash and one of the
    twelve two-digit months. *)
Theorem startOfMonthKey_format (t : Z) :
  startOfMonthKey t
  = pretty (getFullYear t) +:+ "-" +:+ padStart 2 "0" (pretty (getMonth t + 1)) /\
  In (padStart 2 "0" (pretty (getMonth t + 1)))
     ["01"; "02"; "03"; "04"; "05"; "06"; "07"; "08"; "09"; "10"; "11"; "12"].
Proof.
  split; [reflexivity|].
  unfold getMonth, MonthFromTime.
  destruct (days_civil_days (Day (LocalTime t))) as (_ & Bm & _).
  set (m := (civilFromDays (Day (LocalTime t))).1.2) in *. clearbody m.
  assert (C : m = 0 \/ m = 1 \/ m = 2 \/ m = 3 \/ m = 4 \/ m = 5 \/ m = 6 \/
              m = 7 \/ m = 8 \/ m = 9 \/ m = 10 \/ m = 11) by lia.
  repeat (destruct C as [->|C]; [vm_compute; tauto|]).
  subst m. vm_compute. tauto.
Qed.

(** The due date the selector builds for an integral day of month, in a time
    zone with a constant offset, for a year outside 0 to 99. *)
Lemma newDate_same_month (off t d : Z) :
  (forall x b, LocalTZA x b = off) ->
  ~ (0 <= getFullYear t <= 99) ->
  newDate (getFullYear t) (getMonth t) (num_of_Z d)
  = TimeClip (t + (d - DateFromTime (LocalTime t)) * msPerDay
              - LocalTime t mod msPerDay).
Proof.
  intros Tz Ny. unfold newDate, num_of_Z. rewrite truncate_integer.
  replace ((0 <=? getFullYear t) && (getFullYear t <=? 99)) with false.
  2: { symmetry. apply andb_false_iff.
       destruct (Z.leb_spec 0 (getFullYear t)); [|auto].
       destruct (Z.leb_spec (getFullYear t) 99); [|auto]. lia. }
  f_equal. unfold UTC. rewrite Tz.
  unfold MakeDay, getFullYear, getMonth, YearFromTime, MonthFromTime, DateFromTime.
  destruct (days_civil_days (Day (LocalTime t))) as (R & Bm & _).
  set (c := civilFromDays (Day (LocalTime t))) in *. clearbody c.
  replace (c.1.2 / 12) with 0 by (Z.to_euclidean_division_equations; lia).
  replace (c.1.2 mod 12) with (c.1.2) by (Z.to_euclidean_division_equations; lia).
  replace (c.1.1 + 0) with (c.1.1) by lia.
  unfold LocalTime in *. rewrite Tz in *. unfold Day, msPerDay in *.
  Z.to_euclidean_division_equations. lia.
Qed.

(** X20: in a time zone with a constant offset, for a year outside 0 to
    99, a bill with an integral day of month [d] is selected exactly when it
    is unpaid and [d] days of month is at least the present local instant and
    at most 7 days later, counted from the present day of month [D] and the
    time elapsed since local midnight: only [d - D] matters, not the length
    of the month.  So a bill due today is selected only at midnight sharp,
    and a bill due in 1 to 7 days of month is selected whenever unpaid. *)
Theorem selectUpcoming_by_day (off t d : Z) (bs : list ProjectedBill)
  (pb : ProjectedBill) :
  (forall x b, LocalTZA x b = off) ->
  ~ (0 <= getFullYear t <= 99) ->
  Z.abs off <= msPerDay ->
  Z.abs t <= 8600000000000000 ->
  1 <= d <= 31 ->
  dueDay (bill pb) = num_of_Z d ->
  (In pb (selectUpcoming t bs) <->
   In pb bs /\ isPaid pb = false /\
   0 <= (d - DateFromTime (LocalTime t)) * msPerDay - LocalTime t mod msPerDay
     <= 7 * msPerDay) /\
  (d = DateFromTime (LocalTime t) -> LocalTime t mod msPerDay <> 0 ->
   ~ In pb (selectUpcoming t bs)) /\
  (DateFromTime (LocalTime t) < d <= DateFromTime (LocalTime t) + 7 ->
   In pb bs -> isPaid pb = false -> In pb (selectUpcoming t bs)).
Proof.
  intros Tz Ny Bo Bt Bd Ed.
  destruct (days_civil_days (Day (LocalTime t))) as (_ & _ & BD).
  fold (DateFromTime (LocalTime t)) in BD.
  assert (Bmod : 0 <= LocalTime t mod msPerDay < msPerDay).
  { apply Z.mod_pos_bound. reflexivity. }
  set (D := DateFromTime (LocalTime t)) in *.
  set (tod := LocalTime t mod msPerDay) in *.
  assert (Hiff :
    In pb (selectUpcoming t bs) <->
    In pb bs /\ isPaid pb = false /\
    0 <= (d - D) * msPerDay - tod <= 7 * msPerDay).
  { unfold selectUpcoming.
    rewrite filter_In, andb_true_iff, negb_true_iff, upcoming_test, Ed.
    rewrite (newDate_same_month off t d Tz Ny). fold D tod.
    unfold TimeClip.
    replace (8640000000000000 <? Z.abs (t + (d - D) * msPerDay - tod)) with false.
    2: { symmetry. apply Z.ltb_ge. unfold msPerDay in *. lia. }
    split.
    - intros (I & (due & E & R) & P). apply num_of_Z_inj in E. subst due.
      split; [exact I|]. split; [exact P|]. lia.
    - intros (I & P & R). split; [exact I|]. split; [|exact P].
      eexists. split; [reflexivity|]. lia. }
  split; [exact Hiff|]. split.
  - intros -> Nz I. apply Hiff in I. destruct I as (_ & _ & R). lia.
  - intros R I P. apply Hiff. split; [exact I|]. split; [exact P|].
    unfold msPerDay in *. lia.
Qed.

End CalendarFacts.

(** ** Creating, then deleting; and requests with an empty body *)

Lemma removeFirst_snoc (billId : string) (b : Bill) (l : list Bill) :
  ~ In billId (map id l) -> id b = billId ->
  removeFirst (fun c => String.eqb (id c) billId) (l ++ [b]) = l.
Proof.
  intros N E. induction l as [|a r IH]; simpl.
  - rewrite E, String.eqb_refl. reflexivity.
  - destruct (String.eqb_spec (id a) billId) as [Ea|Ea].
    + exfalso. apply N. left. exact Ea.
    + f_equal. apply IH. intros I. apply N. right. exact I.
Qed.

Section RoundTrips.
Context `{Host}.
Variable JSON_parse_body : string -> option Body.

(** X8: deleting a bill that POST /api/bills has just answered with 201
    gives back the store there was before the creation, in a store whose
    payment marks all belong to bills. *)
Theorem createBill_then_delete (env env' : Env) (req : ParseResult)
  (store : Store) (b : Bill) :
  marksHaveBills store ->
  (createBill env req store).2 = mkResponse 201 (PBill b) ->
  (deleteBill env' (id b) (createBill env req store).1).1 = store.
Proof.
  intros Inv R.
  destruct (createBill_cases env req store)
    as [[_ St]|(body & billId & -> & I & F & N & D & E)].
  - rewrite R in St. simpl in St. destruct St as [St|[St|St]]; discriminate.
  - rewrite E in R |- *. cbn [fst snd] in *. unfold afterPersist in R.
    destruct (persistOk env); [|discriminate]. injection R as <-.
    assert (Nin : ~ In billId (map id (bills store))).
    { intros I'. apply hasBill_In in I'. congruence. }
    set (s1 := {| bills := bills store ++ [newBill billId body];
                  payments := payments store;
                  pushTokens := pushTokens store |}).
    assert (Hb : hasBill s1 billId = true).
    { apply hasBill_true. exists (newBill billId body). split; [|reflexivity].
      apply in_or_app. right. left. reflexivity. }
    change (id (newBill billId body)) with billId.
    unfold deleteBill. rewrite Hb. subst s1. cbn [fst bills payments pushTokens].
    rewrite (removeFirst_snoc billId (newBill billId body) _ Nin eq_refl).
    destruct store as [bs pay toks]. f_equal. simpl in *.
    apply map_eq. intros M. rewrite lookup_fmap.
    destruct (pay !! M) as [marks|] eqn:L; simpl; [|reflexivity].
    f_equal. apply delete_id.
    destruct (marks !! billId) as [v|] eqn:K; [|reflexivity].
    rewrite (Inv M marks billId L (ex_intro _ v K)) in F. discriminate.
Qed.

(** X16: a request whose body is empty reaches the handlers as the empty
    object: creation and both token requests answer 400 and leave the store,
    and the paid toggle on a stored bill removes its mark for the current
    month. *)
Theorem empty_body_requests (env : Env) (req : RequestStream) (billId : string)
  (store : Store) :
  joinChunks (chunks req) = EmptyString ->
  ending req = StreamEnded ->
  parseJsonBody JSON_parse_body req = BodyParsed ∅ /\
  createBill env (parseJsonBody JSON_parse_body req) store
    = (store, mkResponse 400 (PError "name is required")) /\
  registerToken env (parseJsonBody JSON_parse_body req) store
    = (store, mkResponse 400 (PError "token is required")) /\
  unregisterToken env (parseJsonBody JSON_parse_body req) store
    = (store, mkResponse 400 (PError "token is required")) /\
  (In billId (map id (bills store)) ->
   payments (setPaid env billId (parseJsonBody JSON_parse_body req) store).1
   = <[startOfMonthKey (now env) :=
         delete billId (default ∅ (payments store !! startOfMonthKey (now env)))]>
       (payments store)).
Proof.
  intros J E.
  assert (P : parseJsonBody JSON_parse_body req = BodyParsed ∅).
  { unfold parseJsonBody.
    rewrite (receive_joined JSON_parse_body (chunks req) (ending req) EmptyString)
      by (unfold payloadLimit; simpl; lia).
    change (EmptyString +:+ joinChunks (chunks req)) with (joinChunks (chunks req)).
    rewrite J, E. reflexivity. }
  rewrite P. split; [reflexivity|]. split; [reflexivity|].
  split; [reflexivity|]. split; [reflexivity|].
  intros I. apply hasBill_In in I.
  rewrite (setPaid_found env billId ∅ store I). cbn [fst payments].
  apply map_eq. intros M. rewrite markPaid_lookup.
  change (toString (monthOf env ∅)) with (startOfMonthKey (now env)).
  change (truthy (field ∅ "isPaid")) with false. cbv iota.
  rewrite lookup_insert. reflexivity.
Qed.

End RoundTrips.

(** * Worked examples *)

(** A day of month past the end of the month rolls into the next month:
    day 31 of April 2024 is 1 May 2024. *)
Example newDate_rolls_over :
  newDate (H:=utcHost) 2024 3 (num_of_Z 31) = num_of_Z (19844 * msPerDay)
  /\ civilFromDays 19844 = (2024, 4, 1).
Proof. split; vm_compute; reflexivity. Qed.

(** Day numbers and calendar dates agree on the epoch, a leap day, the last
    day of a year and a day before the epoch; the example clock is in May
    2024. *)
Example calendar_examples :
  civilFromDays 0 = (1970, 0, 1)
  /\ civilFromDays (daysFromCivil 2024 1 + 28) = (2024, 1, 29)
  /\ civilFromDays (daysFromCivil 2023 11 + 30) = (2023, 11, 31)
  /\ civilFromDays (-1) = (1969, 11, 31)
  /\ MakeDay 2024 4 15 = 19858
  /\ startOfMonthKey (H:=utcHost) (now exampleEnv) = "2024-05".
Proof. repeat split; vm_compute; reflexivity. Qed.

(** On 10 May 2024 the unpaid gym bill, due on the 15th, is selected; the
    rent, paid and due on the 1st, is not. *)
Lemma selectUpcoming_selects_example :
  In {| bill := gym; isPaid := false |}
     (selectUpcoming (H:=utcHost) (now exampleEnv)
        (withPaymentStatus exampleStore "2024-05"))
  /\ ~ In {| bill := rent; isPaid := true |}
       (selectUpcoming (H:=utcHost) (now exampleEnv)
          (withPaymentStatus exampleStore "2024-05")).
Proof.
  split.
  - pose proof (selectUpcoming_selects (H:=utcHost) (now exampleEnv)
                  (withPaymentStatus exampleStore "2024-05")
                  {| bill := gym; isPaid := false |}) as [Hiff _].
    apply Hiff. split; [vm_compute; auto|]. split; [reflexivity|].
    exists 1715731200000. split; [vm_compute; reflexivity|].
    change (now exampleEnv) with 1715342400000. unfold msPerDay. lia.
  - pose proof (selectUpcoming_selects (H:=utcHost) (now exampleEnv)
                  (withPaymentStatus exampleStore "2024-05")
                  {| bill := rent; isPaid := true |}) as (_ & Hpaid & _).
    apply Hpaid. reflexivity.
Defined.

(** The rounding of the worked examples has the properties of a rounding. *)
Lemma Qle_bool_false (x y : Q) : Qle_bool x y = false -> (y < x)%Q.
Proof.
  intros E. apply Qnot_le_lt. intros L. apply Qle_bool_iff in L. congruence.
Qed.

Lemma exactRounding_laws : RoundingLaws (R:=exactRounding).
Proof.
  assert (P : (0 <= maxNumber)%Q) by (apply Qle_bool_iff; vm_compute; reflexivity).
  split.
  - intros q. simpl. destruct (Qle_bool q maxNumber); [|discriminate].
    destruct (Qle_bool (- maxNumber) q); discriminate.
  - intros p q L. simpl.
    destruct (Qle_bool p maxNumber) eqn:A, (Qle_bool (- maxNumber) p) eqn:B,
             (Qle_bool q maxNumber) eqn:C, (Qle_bool (- maxNumber) q) eqn:D;
      simpl; try reflexivity;
      try apply Qle_bool_iff in A; try apply Qle_bool_false in A;
      try apply Qle_bool_iff in B; try apply Qle_bool_false in B;
      try apply Qle_bool_iff in C; try apply Qle_bool_false in C;
      try apply Qle_bool_iff in D; try apply Qle_bool_false in D;
      try (apply Qle_bool_iff; exact L);
      exfalso; revert P A B C D L; generalize maxNumber; intros; lra.
  - vm_compute. reflexivity.
  - intros q r. simpl.
    destruct (Qle_bool q maxNumber) eqn:A; [|discriminate].
    destruct (Qle_bool (- maxNumber) q) eqn:B; [|discriminate].
    intros E. injection E as <-. rewrite A, B. simpl.
    apply Qeq_bool_iff. reflexivity.
Qed.



(** Deleting rent empties the marks of May 2024, which held only rent. *)
Lemma deleteBill_own_marks_example :
  (exists b, In b (bills exampleStore) /\ id b = "rent")
  /\ payments (deleteBill exampleEnv "rent" exampleStore).1 !! "2024-05"
     = Some ∅
  /\ (deleteBill exampleEnv "rent" exampleStore).2 = mkResponse 204 PEmpty.
Proof.
  assert (A : exists b, In b (bills exampleStore) /\ id b = "rent").
  { exists rent. split; [left|]; reflexivity. }
  destruct (proj1 (deleteBill_own_marks (H:=utcHost)) exampleEnv "rent"
              exampleStore A) as (_ & _ & R).
  split; [exact A|]. split; [vm_compute; reflexivity | exact (R eq_refl)].
Defined.

(** A request without a name whose id is the id of a stored bill is answered
    400, not 409. *)
Lemma createBill_duplicate_without_name :
  billIdOf exampleEnv bodyRentNoName = Some "rent"
  /\ (exists b, In b (bills exampleStore) /\ id b = "rent")
  /\ (createBill (H:=utcHost) exampleEnv (BodyParsed bodyRentNoName) exampleStore).2
     = mkResponse 400 (PError "name is required")
  /\ statusCode
       (createBill (H:=utcHost) exampleEnv (BodyParsed bodyRentNoName) exampleStore).2
     <> 409.
Proof.
  split; [vm_compute; reflexivity|]. split.
  - exists rent. split; [left|]; reflexivity.
  - split; [vm_compute; reflexivity | vm_compute; discriminate].
Qed.

(** A valid request reusing the id of rent is answered 409; the store stays. *)
Lemma createBill_duplicate_example :
  billIdOf exampleEnv bodyRentAgain = Some "rent"
  /\ (createBill (H:=utcHost) exampleEnv (BodyParsed bodyRentAgain) exampleStore).1
     = exampleStore
  /\ statusCode
       (createBill (H:=utcHost) exampleEnv (BodyParsed bodyRentAgain) exampleStore).2
     = 409.
Proof.
  assert (I : billIdOf exampleEnv bodyRentAgain = Some "rent")
    by (vm_compute; reflexivity).
  assert (A : exists b, In b (bills exampleStore) /\ id b = "rent").
  { exists rent. split; [left|]; reflexivity. }
  destruct (createBill_duplicate (H:=utcHost) exampleEnv bodyRentAgain
              exampleStore "rent" I A) as [S R].
  split; [exact I|]. split; [exact S|].
  assert (V : nameMissing bodyRentAgain || dueDayInvalid (H:=utcHost) bodyRentAgain
              = false) by (vm_compute; reflexivity).
  rewrite V in R. rewrite R. reflexivity.
Defined.

(** The non-numeric amount abc passes the checks and is stored as NaN. *)
Lemma createBill_amount_not_zero :
  nameMissing bodyWaterAbc = false
  /\ dueDayInvalid (H:=utcHost) bodyWaterAbc = false
  /\ field bodyWaterAbc "amount" = JStr "abc"
  /\ statusCode
       (createBill (H:=utcHost) exampleEnv (BodyParsed bodyWaterAbc) exampleStore).2
     = 201
  /\ map amount
       (bills (createBill (H:=utcHost) exampleEnv (BodyParsed bodyWaterAbc)
                 exampleStore).1)
     = [num_of_Z 1200; num_of_Z 40; NaN]
  /\ NaN <> num_zero.
Proof. repeat split; try (vm_compute; reflexivity). discriminate. Qed.

(** Without an amount field the stored amount is 0. *)
Lemma createBill_amount_example :
  truthy (field bodyWater "amount") = false
  /\ amount (newBill (H:=utcHost) (uuid exampleEnv) bodyWater) = num_zero.
Proof.
  assert (N : nameMissing bodyWater = false) by (vm_compute; reflexivity).
  assert (D : dueDayInvalid (H:=utcHost) bodyWater = false) by (vm_compute; reflexivity).
  assert (I : billIdOf exampleEnv bodyWater = Some (uuid exampleEnv))
    by (vm_compute; reflexivity).
  assert (F : hasBill exampleStore (uuid exampleEnv) = false)
    by (vm_compute; reflexivity).
  assert (T : truthy (field bodyWater "amount") = false) by (vm_compute; reflexivity).
  split; [exact T|].
  exact (proj1 (proj2 (proj2
           (createBill_amount (H:=utcHost) exampleEnv bodyWater exampleStore
              (uuid exampleEnv) N D I F))) T).
Defined.

(** A spaced id is stored trimmed: the water bill is appended with the id
    "water"; without an id the bill is appended with the UUID. *)
Lemma createBill_id_example :
  uuid exampleEnv <> EmptyString
  /\ noSurroundingWhiteSpace (uuid exampleEnv)
  /\ billIdOf exampleEnv bodyWaterSpaced = Some "water"
  /\ billIdOf exampleEnv bodyWater = Some (uuid exampleEnv)
  /\ (exists b,
        bills (createBill (H:=utcHost) exampleEnv (BodyParsed bodyWaterSpaced)
                 exampleStore).1 = [rent; gym; b]
        /\ id b = "water")
  /\ (exists b,
        bills (createBill (H:=utcHost) exampleEnv (BodyParsed bodyWater)
                 exampleStore).1 = [rent; gym; b]
        /\ id b = uuid exampleEnv).
Proof.
  assert (U : uuid exampleEnv <> EmptyString) by discriminate.
  assert (W : noSurroundingWhiteSpace (uuid exampleEnv)).
  { split; intros c E; vm_compute in E; injection E as <-; reflexivity. }
  destruct (createBill_id (H:=utcHost) exampleEnv bodyWaterSpaced exampleStore U W)
    as (_ & _ & _ & T & S).
  destruct (createBill_id (H:=utcHost) exampleEnv bodyWater exampleStore U W)
    as (_ & A & _ & _ & S').
  assert (I : billIdOf exampleEnv bodyWaterSpaced = Some "water").
  { exact (T "  water " ltac:(vm_compute; reflexivity) ltac:(vm_compute; reflexivity)). }
  assert (I' : billIdOf exampleEnv bodyWater = Some (uuid exampleEnv)).
  { apply A. vm_compute; reflexivity. }
  split; [exact U|]. split; [exact W|]. split; [exact I|]. split; [exact I'|].
  split.
  - destruct (S "water" ltac:(vm_compute; reflexivity) ltac:(vm_compute; reflexivity)
                I ltac:(vm_compute; reflexivity)) as (b & E & Eid & _).
    exists b. split; [exact E | exact Eid].
  - destruct (S' (uuid exampleEnv) ltac:(vm_compute; reflexivity)
                ltac:(vm_compute; reflexivity) I' ltac:(vm_compute; reflexivity))
      as (b & E & Eid & _).
    exists b. split; [exact E | exact Eid].
Defined.

(** Marking gym paid for May 2024 leaves the projection of June 2024, and
    May 2024 then shows both bills paid. *)
Lemma toggle_month_scoped_example :
  toString (H:=utcHost) (monthOf (H:=utcHost) exampleEnv bodyPaidMay) = "2024-05"
  /\ readMonth (payments exampleStore)
       (toString (H:=utcHost) (monthOf (H:=utcHost) exampleEnv bodyPaidMay))
     <> InheritedMonth
  /\ (exists store' answer,
        setPaid_js (H:=utcHost) exampleEnv "gym" (BodyParsed bodyPaidMay)
          exampleStore = Some (store', answer)
        /\ withPaymentStatus_js store' "2024-06"
           = withPaymentStatus_js exampleStore "2024-06"
        /\ withPaymentStatus_js store'
             (toString (H:=utcHost) (monthOf (H:=utcHost) exampleEnv bodyPaidMay))
           = Some [{| bill := rent; isPaid := true |};
                   {| bill := gym; isPaid := true |}]).
Proof.
  assert (D : readMonth (payments exampleStore)
                (toString (H:=utcHost) (monthOf (H:=utcHost) exampleEnv bodyPaidMay))
              <> InheritedMonth).
  { vm_compute. discriminate. }
  destruct (toggle_month_scoped (H:=utcHost) exampleEnv "gym" bodyPaidMay
              exampleStore D) as (store' & answer & E & P & _ & _ & _ & _ & Q).
  split; [vm_compute; reflexivity|]. split; [exact D|].
  exists store', answer. split; [exact E|]. split.
  - apply P. vm_compute. discriminate.
  - destruct Q as (l & El & Ea).
    { exists gym. split; [right; left|]; reflexivity. }
    rewrite Ea. vm_compute in El. injection El as <-. vm_compute. reflexivity.
Defined.

(** The string "false" is truthy: gym is marked paid, and the answer says
    so. *)
Lemma toggle_truthiness_example :
  (exists b, In b (bills exampleStore) /\ id b = "gym")
  /\ persistOk exampleEnv = true
  /\ readMonth (payments exampleStore)
       (toString (H:=utcHost) (monthOf (H:=utcHost) exampleEnv bodyPaidMay))
     <> InheritedMonth
  /\ (exists store',
        setPaid_js (H:=utcHost) exampleEnv "gym" (BodyParsed bodyPaidMay)
          exampleStore
        = Some (store', mkResponse 200 (PPaid "gym" (JStr "2024-05") true))).
Proof.
  assert (A : exists b, In b (bills exampleStore) /\ id b = "gym").
  { exists gym. split; [right; left|]; reflexivity. }
  assert (D : readMonth (payments exampleStore)
                (toString (H:=utcHost) (monthOf (H:=utcHost) exampleEnv bodyPaidMay))
              <> InheritedMonth).
  { vm_compute. discriminate. }
  destruct (toggle_truthiness (H:=utcHost) exampleEnv "gym" bodyPaidMay
              exampleStore A eq_refl D) as ((store' & marks & R & _) & _).
  split; [exact A|]. split; [reflexivity|]. split; [exact D|].
  exists store'. rewrite R. vm_compute. reflexivity.
Defined.

(** Registering the stored phone token again changes nothing, and two
    registrations of it on the seed leave one entry. *)
Lemma registerToken_idempotent_example :
  registerToken exampleEnv (BodyParsed bodyPhone) exampleStore
  = (exampleStore, mkResponse 200 (PRegistered (JStr "ExponentPushToken[abc]")))
  /\ (length
        (registrationsOf (JStr "ExponentPushToken[abc]")
           (pushTokens
              (handle (H:=utcHost) exampleEnv (RegisterToken (BodyParsed bodyPhone))
                 (handle (H:=utcHost) exampleEnv
                    (RegisterToken (BodyParsed bodyPhone)) seed).1).1))
      <= 1)%nat.
Proof.
  destruct (registerToken_idempotent (H:=utcHost)) as (I & U & _).
  split.
  - rewrite (I exampleEnv bodyPhone exampleStore phone);
      [ reflexivity | left; reflexivity | vm_compute; reflexivity
      | vm_compute; reflexivity | vm_compute; reflexivity ].
  - apply U. apply reachable_step. apply reachable_step. apply reachable_seed.
Defined.

(** With a parser that rejects everything: no directory gives the seed, a
    file gives the SyntaxError. *)
Lemma ensureStoreFile_load_example :
  ensureStoreFile (fun _ => None) {| dataDir := NoDir; writeError := None |}
  = ({| dataDir := Dir (Regular seedText); writeError := None |},
     Returned (StoreDoc seed))
  /\ ensureStoreFile (fun _ => None)
       {| dataDir := Dir (Regular "{oops"); writeError := None |}
     = ({| dataDir := Dir (Regular "{oops"); writeError := None |},
        Thrown SyntaxError).
Proof.
  split.
  - exact (proj1 (ensureStoreFile_load (fun _ => None)
                    {| dataDir := NoDir; writeError := None |}) eq_refl eq_refl).
  - exact (proj1 (proj2 (ensureStoreFile_load (fun _ => None)
                    {| dataDir := Dir (Regular "{oops"); writeError := None |}))
             "{oops" eq_refl eq_refl).
Defined.

(** * Worked examples of the further properties *)

(** The example store has unique ids and marks of stored bills only. *)
Lemma exampleStore_uniqueIds : uniqueIds exampleStore.
Proof.
  unfold uniqueIds. simpl. repeat constructor; simpl; intuition discriminate.
Qed.

Lemma exampleStore_marksHaveBills : marksHaveBills exampleStore.
Proof.
  intros month marks billId L S. simpl in L.
  apply lookup_singleton_Some in L. destruct L as [_ <-].
  destruct S as [v S]. apply lookup_singleton_Some in S. destruct S as [<- _].
  reflexivity.
Qed.

(** No stored bill has the id water: PUT, DELETE and the toggle answer 404. *)
Lemma unknown_bill_example :
  ~ In "water" (map id (bills exampleStore))
  /\ deleteBill exampleEnv "water" exampleStore = (exampleStore, notFound)
  /\ setPaid (H:=utcHost) exampleEnv "water" (BodyParsed bodyPaidMay) exampleStore
     = (exampleStore, notFound).
Proof.
  assert (N : ~ In "water" (map id (bills exampleStore))).
  { simpl. intuition discriminate. }
  destruct (unknown_bill_not_found (H:=utcHost) exampleEnv "water" bodyPaidMay
              exampleStore N) as (_ & D & P).
  split; [exact N|]. split; [exact D | exact P].
Defined.

(** Deleting rent leaves the gym bill alone. *)
Lemma deleteBill_removes_example :
  uniqueIds exampleStore
  /\ In "rent" (map id (bills exampleStore))
  /\ bills (deleteBill exampleEnv "rent" exampleStore).1 = [gym].
Proof.
  assert (I : In "rent" (map id (bills exampleStore))) by (left; reflexivity).
  destruct (deleteBill_removes_bill (H:=utcHost) exampleEnv exampleEnv "rent"
              bodyPaidMay exampleStore exampleStore_uniqueIds I) as (B & _).
  split; [exact exampleStore_uniqueIds|]. split; [exact I|].
  rewrite B. vm_compute. reflexivity.
Defined.

(** A PUT with the body of the paid toggle, which carries none of the four
    fields, leaves the example store as it is. *)
Lemma updateBill_in_place_example :
  uniqueIds exampleStore
  /\ In gym (bills exampleStore)
  /\ (updateBill (H:=utcHost) exampleEnv "gym" (BodyParsed bodyPaidMay)
        exampleStore).1 = exampleStore.
Proof.
  assert (I : In gym (bills exampleStore)) by (right; left; reflexivity).
  destruct (updateBill_in_place (H:=utcHost) exampleEnv "gym" bodyPaidMay
              exampleStore gym exampleStore_uniqueIds I eq_refl)
    as (_ & _ & _ & _ & _ & _ & S).
  split; [exact exampleStore_uniqueIds|]. split; [exact I|].
  apply S; vm_compute; reflexivity.
Defined.

(** Creating the water bill: it is listed last, unpaid, in May 2024. *)
Lemma createBill_created_example :
  marksHaveBills exampleStore
  /\ (createBill (H:=utcHost) exampleEnv (BodyParsed bodyWaterSpaced) exampleStore).2
     = mkResponse 201 (PBill (newBill (H:=utcHost) "water" bodyWaterSpaced))
  /\ withPaymentStatus_js
       (createBill (H:=utcHost) exampleEnv (BodyParsed bodyWaterSpaced)
          exampleStore).1 "2024-05"
     = Some [{| bill := rent; isPaid := true |};
             {| bill := gym; isPaid := false |};
             {| bill := newBill (H:=utcHost) "water" bodyWaterSpaced;
                isPaid := false |}].
Proof.
  assert (R : (createBill (H:=utcHost) exampleEnv (BodyParsed bodyWaterSpaced)
                 exampleStore).2
              = mkResponse 201 (PBill (newBill (H:=utcHost) "water" bodyWaterSpaced))).
  { vm_compute. reflexivity. }
  destruct (createBill_created (H:=utcHost) exampleEnv (BodyParsed bodyWaterSpaced)
              exampleStore _ exampleStore_marksHaveBills R) as (_ & _ & P & _).
  split; [exact exampleStore_marksHaveBills|]. split; [exact R|].
  rewrite (P "2024-05"
             [{| bill := rent; isPaid := true |}; {| bill := gym; isPaid := false |}])
    by (vm_compute; reflexivity).
  vm_compute. reflexivity.
Defined.

(** The request without a name is answered 400 and leaves the store. *)
Lemma createBill_rejected_example :
  persistOk exampleEnv = true
  /\ statusCode
       (createBill (H:=utcHost) exampleEnv (BodyParsed bodyRentNoName)
          exampleStore).2 = 400
  /\ (createBill (H:=utcHost) exampleEnv (BodyParsed bodyRentNoName)
        exampleStore).1 = exampleStore.
Proof.
  split; [reflexivity|]. split; [vm_compute; reflexivity|].
  apply (createBill_rejected (H:=utcHost)); [reflexivity|].
  vm_compute. discriminate.
Defined.

(** Marking gym paid for May 2024 and then clearing the flag is clearing
    it. *)
Lemma setPaid_last_wins_example :
  toString (H:=utcHost) (monthOf (H:=utcHost) exampleEnv bodyPaidMay)
  = toString (H:=utcHost) (monthOf (H:=utcHost) exampleEnv bodyUnpaidMay)
  /\ (exists store1 answer1,
        setPaid_js (H:=utcHost) exampleEnv "gym" (BodyParsed bodyPaidMay)
          exampleStore = Some (store1, answer1)
        /\ setPaid_js (H:=utcHost) exampleEnv "gym" (BodyParsed bodyUnpaidMay) store1
           = setPaid_js (H:=utcHost) exampleEnv "gym" (BodyParsed bodyUnpaidMay)
               exampleStore).
Proof.
  assert (K : toString (H:=utcHost) (monthOf (H:=utcHost) exampleEnv bodyPaidMay)
              = toString (H:=utcHost) (monthOf (H:=utcHost) exampleEnv bodyUnpaidMay)).
  { vm_compute. reflexivity. }
  split; [exact K|].
  destruct (setPaid_js (H:=utcHost) exampleEnv "gym" (BodyParsed bodyPaidMay)
              exampleStore) as [[store1 answer1]|] eqn:E.
  - exists store1, answer1. split; [reflexivity|].
    apply (setPaid_last_wins (H:=utcHost) exampleEnv exampleEnv "gym" bodyPaidMay
             bodyUnpaidMay exampleStore store1 answer1 E K).
    discriminate.
  - vm_compute in E. discriminate.
Defined.

(** After unregistering the phone the example store holds no registration
    at all. *)
Lemma unregisterToken_removes_example :
  truthy (field bodyPhone "token") = true
  /\ pushTokens (unregisterToken exampleEnv (BodyParsed bodyPhone)
                   exampleStore).1 = []
  /\ registrationsOf (field bodyPhone "token")
       (pushTokens (unregisterToken exampleEnv (BodyParsed bodyPhone)
                      exampleStore).1) = [].
Proof.
  assert (T : truthy (field bodyPhone "token") = true) by (vm_compute; reflexivity).
  destruct (unregisterToken_removes exampleEnv bodyPhone exampleStore T)
    as (F & _ & N & _).
  split; [exact T|]. split; [|exact N].
  rewrite F. vm_compute. reflexivity.
Defined.


(** Registering the phone on the seed and unregistering it gives the seed's
    empty token list. *)
Lemma register_then_unregister_example :
  registrationsOf (field bodyPhone "token") (pushTokens seed) = []
  /\ pushTokens
       (unregisterToken exampleEnv (BodyParsed bodyPhone)
          (registerToken exampleEnv (BodyParsed bodyPhone) seed).1).1
     = pushTokens seed.
Proof.
  split; [reflexivity|].
  apply (register_then_unregister exampleEnv exampleEnv bodyPhone seed);
    vm_compute; reflexivity.
Defined.

(** On 10 May 2024 at noon UTC, gym (day 15) is five days of month ahead. *)
Lemma selectUpcoming_by_day_example :
  DateFromTime (LocalTime (H:=utcHost) (now exampleEnv)) = 10
  /\ In {| bill := gym; isPaid := false |}
       (selectUpcoming (H:=utcHost) (now exampleEnv)
          (withPaymentStatus exampleStore "2024-05")).
Proof.
  split; [vm_compute; reflexivity|].
  destruct (selectUpcoming_by_day (H:=utcHost) 0 (now exampleEnv) 15
              (withPaymentStatus exampleStore "2024-05")
              {| bill := gym; isPaid := false |}) as (_ & _ & S).
  - reflexivity.
  - vm_compute. intros [_ A]. apply A. reflexivity.
  - vm_compute. discriminate.
  - vm_compute. discriminate.
  - lia.
  - reflexivity.
  - apply S.
    + vm_compute. split; [reflexivity | discriminate].
    + vm_compute. auto.
    + reflexivity.
Defined.

(** Creating the water bill and deleting it gives back the example store. *)
Lemma createBill_then_delete_example :
  (deleteBill exampleEnv "water"
     (createBill (H:=utcHost) exampleEnv (BodyParsed bodyWaterSpaced)
        exampleStore).1).1 = exampleStore.
Proof.
  exact (createBill_then_delete (H:=utcHost) exampleEnv exampleEnv
           (BodyParsed bodyWaterSpaced) exampleStore
           (newBill (H:=utcHost) "water" bodyWaterSpaced)
           exampleStore_marksHaveBills ltac:(vm_compute; reflexivity)).
Defined.

(** A request with no chunk at all: the toggle on rent clears its mark for
    May 2024, the current month of the example clock. *)
Lemma empty_body_example :
  joinChunks (chunks (mkStream [] StreamEnded)) = EmptyString
  /\ payments
       (setPaid (H:=utcHost) exampleEnv "rent"
          (parseJsonBody (fun _ => None) (mkStream [] StreamEnded)) exampleStore).1
     !! "2024-05" = Some ∅.
Proof.
  split; [reflexivity|].
  destruct (empty_body_requests (H:=utcHost) (fun _ => None) exampleEnv
              (mkStream [] StreamEnded) "rent" exampleStore eq_refl eq_refl)
    as (_ & _ & _ & _ & P).
  rewrite P by (left; reflexivity). vm_compute. reflexivity.
Defined.
